(** * cmswww: identity model and configuration loading

    A shallow embedding of two Go packages of the contractor management
    system:

    - [cmswww/database] (database.go): the [Identity] record and the
      helpers [IsIdentityActive], [ActiveIdentity], [ActiveIdentityString];
    - [cmswww/cmd/cmswwwdataload/config] (config.go): the [Config] record,
      [cleanAndExpandPath] and [Load].

    Definitions come first (modules [Hex], [Database], [Filepath], [Flags],
    [Dataload]); the theorems about them follow. *)

From Stdlib Require Import List String Ascii NArith ZArith Bool Lia.
From Stdlib Require Import Permutation.
From Stdlib.Strings Require Import Byte.
#[warnings="-stdlib-vector"]
From Stdlib Require Vector.
Import ListNotations.

Local Open Scope string_scope.
Local Open Scope list_scope.

(* ===================================================================== *)
(** ** encoding/hex *)
(* ===================================================================== *)

Module Hex.

(** [hextable = "0123456789abcdef"], indexed by a nibble. *)
Definition hextable : string := "0123456789abcdef".

Definition hexdigit (n : N) : ascii :=
  match String.get (N.to_nat n) hextable with
  | Some c => c
  | None => "0"%char
  end.

(** [Encode]: every source byte [v] gives [hextable[v>>4]] followed by
    [hextable[v&0x0f]]. *)
Fixpoint EncodeToString (src : list byte) : string :=
  match src with
  | [] => EmptyString
  | v :: rest =>
      let n := Byte.to_N v in
      String (hexdigit (N.shiftr n 4))
        (String (hexdigit (N.land n 15)) (EncodeToString rest))
  end.

(** *** Notions used to state the properties of the encoding *)

(** [fromHexChar] of encoding/hex: the value of a hexadecimal digit. *)
Definition fromHexChar (c : ascii) : option N :=
  let n := N_of_ascii c in
  if ((48 <=? n) && (n <=? 57))%N then Some (n - 48)%N
  else if ((97 <=? n) && (n <=? 102))%N then Some (n - 97 + 10)%N
  else if ((65 <=? n) && (n <=? 70))%N then Some (n - 65 + 10)%N
  else None.

(** One of the characters [0-9a-f]. *)
Definition isLowerHex (c : ascii) : bool :=
  let n := N_of_ascii c in
  ((48 <=? n) && (n <=? 57) || (97 <=? n) && (n <=? 102))%N.

(** Every character of [s] satisfies [p]. *)
Fixpoint allChars (p : ascii -> bool) (s : string) : bool :=
  match s with
  | EmptyString => true
  | String c rest => p c && allChars p rest
  end.

End Hex.

(* ===================================================================== *)
(** ** package database *)
(* ===================================================================== *)

Module Database.

Section WithKeySize.

(** [identity.PublicKeySize] is declared in politeiad's identity package
    (the size of an ed25519 public key); the model is parametric in it. *)
Variable PublicKeySize : nat.

(** [[identity.PublicKeySize]byte]: an array, so its length is part of the
    type. *)
Definition PublicKey : Type := Vector.t byte PublicKeySize.

(** The zero value [[identity.PublicKeySize]byte{}]. *)
Definition zeroKey : PublicKey := Vector.const x00 PublicKeySize.

(** [type Identity struct]; the two timestamps are [int64] values. *)
Record Identity : Type := mkIdentity {
  Key : PublicKey;
  Activated : Z;
  Deactivated : Z
}.

(** [return id.Activated != 0 && id.Deactivated == 0] *)
Definition IsIdentityActive (id : Identity) : bool :=
  negb (Activated id =? 0)%Z && (Deactivated id =? 0)%Z.

(** The [for _, v := range i] loop with its early return. *)
Fixpoint ActiveIdentity (i : list Identity) : PublicKey * bool :=
  match i with
  | [] => (zeroKey, false)
  | v :: rest =>
      if IsIdentityActive v then (Key v, true) else ActiveIdentity rest
  end.

(** [key, ok := ActiveIdentity(i); return hex.EncodeToString(key[:]), ok] *)
Definition ActiveIdentityString (i : list Identity) : string * bool :=
  let (key, ok) := ActiveIdentity i in
  (Hex.EncodeToString (Vector.to_list key), ok).

(** No identity of the sequence is active. *)
Definition noneActive (i : list Identity) : Prop :=
  forall v, In v i -> IsIdentityActive v = false.

End WithKeySize.

Arguments mkIdentity {PublicKeySize} _ _ _.
Arguments Key {PublicKeySize} _.
Arguments Activated {PublicKeySize} _.
Arguments Deactivated {PublicKeySize} _.
Arguments IsIdentityActive {PublicKeySize} _.
Arguments ActiveIdentity {PublicKeySize} _.
Arguments ActiveIdentityString {PublicKeySize} _.
Arguments noneActive {PublicKeySize} _.

(** The contract on [User.Identities]: "User should only have one active
    key at a time". *)
Definition atMostOneActive {PublicKeySize : nat}
    (i : list (Identity PublicKeySize)) : Prop :=
  List.length (filter IsIdentityActive i) <= 1.

(** *** Sample identities, for a key size of 32 bytes *)

Definition sampleKey (b : byte) : PublicKey 32 := Vector.const b 32.

(** Activated, then superseded. *)
Definition retiredIdentity : Identity 32 :=
  {| Key := sampleKey x0a;
     Activated := 1500000000;
     Deactivated := 1500086400 |}.

(** Two identities that are both active, as a backend that breaks the
    "at most one active" contract could return them. *)
Definition firstActiveIdentity : Identity 32 :=
  {| Key := sampleKey x0b; Activated := 1500086400; Deactivated := 0 |}.

Definition secondActiveIdentity : Identity 32 :=
  {| Key := sampleKey x0c; Activated := 1500172800; Deactivated := 0 |}.

End Database.

(* ===================================================================== *)
(** ** path/filepath and strings (Unix) *)
(* ===================================================================== *)

(** The Go standard library functions that config.go calls, for a Unix
    target: separator ['/'], no volume names. *)
Module Filepath.

Definition Separator : ascii := "/"%char.

Definition IsPathSeparator (c : ascii) : bool := Ascii.eqb c Separator.

(** [strings.HasPrefix(path, "~")] *)
Definition hasTildePrefix (path : string) : bool :=
  match path with
  | String c _ => Ascii.eqb c "~"%char
  | EmptyString => false
  end.

(** [IsAbs]: on Unix, [strings.HasPrefix(path, "/")]. *)
Definition IsAbs (path : string) : bool :=
  match path with
  | String c _ => IsPathSeparator c
  | EmptyString => false
  end.

(** The path elements: the pieces of [path] between separators. *)
Fixpoint split (path : string) : list string :=
  match path with
  | EmptyString => [EmptyString]
  | String c rest =>
      if IsPathSeparator c then EmptyString :: split rest
      else match split rest with
           | e :: es => String c e :: es
           | [] => [String c EmptyString]
           end
  end.

(** [strings.Join(elem, "/")] *)
Fixpoint joinSep (elem : list string) : string :=
  match elem with
  | [] => EmptyString
  | [e] => e
  | e :: rest => e ++ String Separator (joinSep rest)
  end.

(** The main loop of [Clean], one path element at a time.  [out] is the
    output buffer as a stack of elements, last written first.  An empty
    element and ["."] are dropped; [".."] removes the last real element when
    there is one ([out.w > dotdot]), is appended on a path that is not
    rooted, and is dropped at the root; any other element is appended. *)
Fixpoint cleanElems (rooted : bool) (out : list string) (elems : list string)
  : list string :=
  match elems with
  | [] => out
  | e :: rest =>
      if (e =? "")%string then cleanElems rooted out rest
      else if (e =? ".")%string then cleanElems rooted out rest
      else if (e =? "..")%string then
        match out with
        | top :: below =>
            if (top =? "..")%string
            then cleanElems rooted (if rooted then out else e :: out) rest
            else cleanElems rooted below rest
        | [] => cleanElems rooted (if rooted then out else e :: out) rest
        end
      else cleanElems rooted (e :: out) rest
  end.

(** [filepath.Clean]: the shortest path name equivalent to [path] by purely
    lexical processing.  The empty path gives ["."]; a rooted path keeps
    its leading separator; an empty result is turned into ["."]. *)
Definition Clean (path : string) : string :=
  if (path =? "")%string then "."
  else
    let rooted := IsAbs path in
    let body := joinSep (rev (cleanElems rooted [] (split path))) in
    if rooted then String Separator body
    else if (body =? "")%string then "." else body.

(** [filepath.Join]: leading empty elements are ignored, the others are
    joined with the separator and the result is cleaned; all empty gives
    the empty string. *)
Fixpoint Join (elem : list string) : string :=
  match elem with
  | [] => EmptyString
  | e :: rest =>
      if (e =? "")%string then Join rest else Clean (joinSep elem)
  end.

(** [path[:i+1]] for [i] the index of the last separator of [path]
    (the empty string when there is none). *)
Fixpoint uptoLastSeparator (path : string) : string :=
  match path with
  | EmptyString => EmptyString
  | String c rest =>
      match uptoLastSeparator rest with
      | EmptyString =>
          if IsPathSeparator c then String c EmptyString else EmptyString
      | pre => String c pre
      end
  end.

(** [filepath.Dir]: all but the last element of [path], cleaned. *)
Definition Dir (path : string) : string := Clean (uptoLastSeparator path).

(** [filepath.Abs], with the result of [os.Getwd] passed in ([None] when
    it fails).  config.go discards the error ([cfg.DataDir, _ = ...]), so
    the model returns the string alone: [""] on failure. *)
Definition Abs (getwd : option string) (path : string) : string :=
  if IsAbs path then Clean path
  else match getwd with
       | Some wd => Join [wd; path]
       | None => EmptyString
       end.

(** *** Notions used to state the properties of [Clean] *)

(** No byte of [s] is a separator. *)
Fixpoint noSeparator (s : string) : bool :=
  match s with
  | EmptyString => true
  | String c rest => negb (IsPathSeparator c) && noSeparator rest
  end.

(** A file name: one path element that is not empty, ["."] or [".."]. *)
Definition isFileName (s : string) : bool :=
  noSeparator s && negb (s =? "")%string && negb (s =? ".")%string
  && negb (s =? "..")%string.

(** [e] is an element that [cleanElems] appends to the output [below]. *)
Definition appended (rooted : bool) (below : list string) (e : string) : Prop :=
  e <> "" /\ e <> "." /\ noSeparator e = true /\
  (e = ".." -> rooted = false /\ (below = [] \/ exists b, below = ".." :: b)).

(** An output buffer in which every element was appended. *)
Fixpoint cleanOutput (rooted : bool) (out : list string) : Prop :=
  match out with
  | [] => True
  | e :: below => appended rooted below e /\ cleanOutput rooted below
  end.

(** The string [Clean] returns for an output buffer. *)
Definition cleaned (rooted : bool) (out : list string) : string :=
  let body := joinSep (rev out) in
  if rooted then String Separator body
  else if (body =? "")%string then "." else body.

End Filepath.

(* ===================================================================== *)
(** ** github.com/btcsuite/go-flags *)
(* ===================================================================== *)

(** The option parser is a library outside the repository.  The model
    takes the command line and the ini file already split into the
    arguments the parser recognises, and keeps the part of its behaviour
    that [Load] relies on: arguments are handled from left to right, an
    option stores its value into the struct the parser was built on, and
    the first argument that raises an error (the help flag included) stops
    the parse with that error, the options before it staying stored.  The
    two parsers that [Load] builds ([flags.HelpFlag] and [flags.Default])
    are taken to read the command line alike; a bare [--], which only the
    second one treats as the end of the options, is left out. *)
Module Flags.

(** [flags.ErrorType] *)
Inductive ErrorType : Type :=
| ErrUnknown
| ErrExpectedArgument
| ErrUnknownFlag
| ErrUnknownGroup
| ErrMarshal
| ErrHelp
| ErrNoArgumentForBool
| ErrRequired.

Definition isErrHelp (t : ErrorType) : bool :=
  match t with ErrHelp => true | _ => false end.

(** One command-line argument as the parser classifies it: an option of
    the struct with its value, a positional argument (kept aside, no
    effect on the struct), the built-in help flag [-h]/[--help], or an
    argument the parser rejects with an error of the given type. *)
Inductive Arg (Setting : Type) : Type :=
| Opt (s : Setting)
| Positional (a : string)
| HelpFlag
| Invalid (t : ErrorType).

Arguments Opt {Setting} _.
Arguments Positional {Setting} _.
Arguments HelpFlag {Setting}.
Arguments Invalid {Setting} _.

(** One entry of an ini file: [key=value] for an option of the struct, or
    an entry the ini parser rejects (unknown key, value that does not
    convert). *)
Inductive IniEntry (Setting : Type) : Type :=
| IniOpt (s : Setting)
| IniInvalid.

Arguments IniOpt {Setting} _.
Arguments IniInvalid {Setting}.

Section Parser.

Context {Cfg Setting : Type}.

(** How an option stores its value into the struct (go-flags does it by
    reflection on the [long:"..."] tags). *)
Variable assign : Setting -> Cfg -> Cfg.

(** [Parser.Parse]: returns the struct as it stands when the parse ends
    and the error, if any. *)
Fixpoint Parse (cfg : Cfg) (args : list (Arg Setting))
  : Cfg * option ErrorType :=
  match args with
  | [] => (cfg, None)
  | Opt s :: rest => Parse (assign s cfg) rest
  | Positional _ :: rest => Parse cfg rest
  | HelpFlag :: _ => (cfg, Some ErrHelp)
  | Invalid t :: _ => (cfg, Some t)
  end.

(** The second half of [IniParser.ParseFile]: the entries read from the
    file are stored in order; [false] reports a rejected entry. *)
Fixpoint parseIni (cfg : Cfg) (entries : list (IniEntry Setting))
  : Cfg * bool :=
  match entries with
  | [] => (cfg, true)
  | IniOpt s :: rest => parseIni (assign s cfg) rest
  | IniInvalid :: _ => (cfg, false)
  end.

End Parser.

(** *** What a parse stores and reports *)

(** The options a parse stores, in order: those that come before the
    first help flag or rejected argument. *)
Fixpoint stored {Setting : Type} (args : list (Arg Setting)) : list Setting :=
  match args with
  | [] => []
  | Opt s :: rest => s :: stored rest
  | Positional _ :: rest => stored rest
  | HelpFlag :: _ => []
  | Invalid _ :: _ => []
  end.

(** The error a parse ends with. *)
Fixpoint firstError {Setting : Type} (args : list (Arg Setting))
  : option ErrorType :=
  match args with
  | [] => None
  | Opt _ :: rest => firstError rest
  | Positional _ :: rest => firstError rest
  | HelpFlag :: _ => Some ErrHelp
  | Invalid t :: _ => Some t
  end.

(** An argument that raises no error. *)
Definition accepted {Setting : Type} (a : Arg Setting) : bool :=
  match a with
  | Opt _ | Positional _ => true
  | HelpFlag | Invalid _ => false
  end.

(** The entries of an ini file that are stored, and whether all are. *)
Fixpoint iniStored {Setting : Type} (entries : list (IniEntry Setting))
  : list Setting :=
  match entries with
  | [] => []
  | IniOpt s :: rest => s :: iniStored rest
  | IniInvalid :: _ => []
  end.

Fixpoint iniValid {Setting : Type} (entries : list (IniEntry Setting)) : bool :=
  match entries with
  | [] => true
  | IniOpt _ :: rest => iniValid rest
  | IniInvalid :: _ => false
  end.

End Flags.

(* ===================================================================== *)
(** ** package config (cmswwwdataload) *)
(* ===================================================================== *)

Module Dataload.

Definition defaultDataDirname : string := "dataload".
Definition defaultConfigFilename : string := "cmswwwdataload.conf".
Definition defaultPoliteiadLogFilename : string := "politeiad.log".
Definition defaultCmswwwLogFilename : string := "cmswww.log".
Definition defaultLogLevel : string := "info".

(** [type Config struct]: fifteen options and the two log file paths,
    which carry no flag tag and so are set by [Load] alone. *)
Record Config : Type := mkConfig {
  AdminEmail : string;
  AdminUser : string;
  AdminPass : string;
  ContractorEmail : string;
  ContractorUser : string;
  ContractorPass : string;
  ContractorName : string;
  ContractorLocation : string;
  ContractorExtendedPublicKey : string;
  Verbose : bool;
  DataDir : string;
  ConfigFile : string;
  DebugLevel : string;
  DeleteData : bool;
  IncludeTests : bool;
  PoliteiadLogFile : string;
  CmswwwLogFile : string
}.

(** The options with a string value, by their [long] names. *)
Inductive StringOption : Type :=
| adminemail
| adminuser
| adminpass
| contractoremail
| contractoruser
| contractorpass
| contractorname
| contractorlocation
| contractorextendedpublickey
| datadir
| configfile
| debuglevel.

(** The boolean options, by their [long] names. *)
Inductive BoolOption : Type :=
| verbose
| deletedata
| includetests.

(** An option together with the value given for it. *)
Inductive Setting : Type :=
| SetString (o : StringOption) (v : string)
| SetBool (o : BoolOption) (b : bool).

(** The struct field an option is tagged on. *)
Definition getString (o : StringOption) (c : Config) : string :=
  match o with
  | adminemail => AdminEmail c
  | adminuser => AdminUser c
  | adminpass => AdminPass c
  | contractoremail => ContractorEmail c
  | contractoruser => ContractorUser c
  | contractorpass => ContractorPass c
  | contractorname => ContractorName c
  | contractorlocation => ContractorLocation c
  | contractorextendedpublickey => ContractorExtendedPublicKey c
  | datadir => DataDir c
  | configfile => ConfigFile c
  | debuglevel => DebugLevel c
  end.

Definition getBool (o : BoolOption) (c : Config) : bool :=
  match o with
  | verbose => Verbose c
  | deletedata => DeleteData c
  | includetests => IncludeTests c
  end.

(** Assignment to one field of the struct, the others unchanged. *)
Definition setString (o : StringOption) (x : string) (c : Config) : Config :=
  match o with
  | adminemail =>
      mkConfig x (AdminUser c) (AdminPass c) (ContractorEmail c)
      (ContractorUser c) (ContractorPass c) (ContractorName c)
      (ContractorLocation c) (ContractorExtendedPublicKey c) (Verbose c)
      (DataDir c) (ConfigFile c) (DebugLevel c) (DeleteData c) (IncludeTests
      c) (PoliteiadLogFile c) (CmswwwLogFile c)
  | adminuser =>
      mkConfig (AdminEmail c) x (AdminPass c) (ContractorEmail c)
      (ContractorUser c) (ContractorPass c) (ContractorName c)
      (ContractorLocation c) (ContractorExtendedPublicKey c) (Verbose c)
      (DataDir c) (ConfigFile c) (DebugLevel c) (DeleteData c) (IncludeTests
      c) (PoliteiadLogFile c) (CmswwwLogFile c)
  | adminpass =>
      mkConfig (AdminEmail c) (AdminUser c) x (ContractorEmail c)
      (ContractorUser c) (ContractorPass c) (ContractorName c)
      (ContractorLocation c) (ContractorExtendedPublicKey c) (Verbose c)
      (DataDir c) (ConfigFile c) (DebugLevel c) (DeleteData c) (IncludeTests
      c) (PoliteiadLogFile c) (CmswwwLogFile c)
  | contractoremail =>
      mkConfig (AdminEmail c) (AdminUser c) (AdminPass c) x (ContractorUser c)
      (ContractorPass c) (ContractorName c) (ContractorLocation c)
      (ContractorExtendedPublicKey c) (Verbose c) (DataDir c) (ConfigFile c)
      (DebugLevel c) (DeleteData c) (IncludeTests c) (PoliteiadLogFile c)
      (CmswwwLogFile c)
  | contractoruser =>
      mkConfig (AdminEmail c) (AdminUser c) (AdminPass c) (ContractorEmail c)
      x (ContractorPass c) (ContractorName c) (ContractorLocation c)
      (ContractorExtendedPublicKey c) (Verbose c) (DataDir c) (ConfigFile c)
      (DebugLevel c) (DeleteData c) (IncludeTests c) (PoliteiadLogFile c)
      (CmswwwLogFile c)
  | contractorpass =>
      mkConfig (AdminEmail c) (AdminUser c) (AdminPass c) (ContractorEmail c)
      (ContractorUser c) x (ContractorName c) (ContractorLocation c)
      (ContractorExtendedPublicKey c) (Verbose c) (DataDir c) (ConfigFile c)
      (DebugLevel c) (DeleteData c) (IncludeTests c) (PoliteiadLogFile c)
      (CmswwwLogFile c)
  | contractorname =>
      mkConfig (AdminEmail c) (AdminUser c) (AdminPass c) (ContractorEmail c)
      (ContractorUser c) (ContractorPass c) x (ContractorLocation c)
      (ContractorExtendedPublicKey c) (Verbose c) (DataDir c) (ConfigFile c)
      (DebugLevel c) (DeleteData c) (IncludeTests c) (PoliteiadLogFile c)
      (CmswwwLogFile c)
  | contractorlocation =>
      mkConfig (AdminEmail c) (AdminUser c) (AdminPass c) (ContractorEmail c)
      (ContractorUser c) (ContractorPass c) (ContractorName c) x
      (ContractorExtendedPublicKey c) (Verbose c) (DataDir c) (ConfigFile c)
      (DebugLevel c) (DeleteData c) (IncludeTests c) (PoliteiadLogFile c)
      (CmswwwLogFile c)
  | contractorextendedpublickey =>
      mkConfig (AdminEmail c) (AdminUser c) (AdminPass c) (ContractorEmail c)
      (ContractorUser c) (ContractorPass c) (ContractorName c)
      (ContractorLocation c) x (Verbose c) (DataDir c) (ConfigFile c)
      (DebugLevel c) (DeleteData c) (IncludeTests c) (PoliteiadLogFile c)
      (CmswwwLogFile c)
  | datadir =>
      mkConfig (AdminEmail c) (AdminUser c) (AdminPass c) (ContractorEmail c)
      (ContractorUser c) (ContractorPass c) (ContractorName c)
      (ContractorLocation c) (ContractorExtendedPublicKey c) (Verbose c) x
      (ConfigFile c) (DebugLevel c) (DeleteData c) (IncludeTests c)
      (PoliteiadLogFile c) (CmswwwLogFile c)
  | configfile =>
      mkConfig (AdminEmail c) (AdminUser c) (AdminPass c) (ContractorEmail c)
      (ContractorUser c) (ContractorPass c) (ContractorName c)
      (ContractorLocation c) (ContractorExtendedPublicKey c) (Verbose c)
      (DataDir c) x (DebugLevel c) (DeleteData c) (IncludeTests c)
      (PoliteiadLogFile c) (CmswwwLogFile c)
  | debuglevel =>
      mkConfig (AdminEmail c) (AdminUser c) (AdminPass c) (ContractorEmail c)
      (ContractorUser c) (ContractorPass c) (ContractorName c)
      (ContractorLocation c) (ContractorExtendedPublicKey c) (Verbose c)
      (DataDir c) (ConfigFile c) x (DeleteData c) (IncludeTests c)
      (PoliteiadLogFile c) (CmswwwLogFile c)
  end.

Definition setBool (o : BoolOption) (x : bool) (c : Config) : Config :=
  match o with
  | verbose =>
      mkConfig (AdminEmail c) (AdminUser c) (AdminPass c) (ContractorEmail c)
      (ContractorUser c) (ContractorPass c) (ContractorName c)
      (ContractorLocation c) (ContractorExtendedPublicKey c) x (DataDir c)
      (ConfigFile c) (DebugLevel c) (DeleteData c) (IncludeTests c)
      (PoliteiadLogFile c) (CmswwwLogFile c)
  | deletedata =>
      mkConfig (AdminEmail c) (AdminUser c) (AdminPass c) (ContractorEmail c)
      (ContractorUser c) (ContractorPass c) (ContractorName c)
      (ContractorLocation c) (ContractorExtendedPublicKey c) (Verbose c)
      (DataDir c) (ConfigFile c) (DebugLevel c) x (IncludeTests c)
      (PoliteiadLogFile c) (CmswwwLogFile c)
  | includetests =>
      mkConfig (AdminEmail c) (AdminUser c) (AdminPass c) (ContractorEmail c)
      (ContractorUser c) (ContractorPass c) (ContractorName c)
      (ContractorLocation c) (ContractorExtendedPublicKey c) (Verbose c)
      (DataDir c) (ConfigFile c) (DebugLevel c) (DeleteData c) x
      (PoliteiadLogFile c) (CmswwwLogFile c)
  end.

Definition setPoliteiadLogFile (x : string) (c : Config) : Config :=
  mkConfig (AdminEmail c) (AdminUser c) (AdminPass c) (ContractorEmail c)
  (ContractorUser c) (ContractorPass c) (ContractorName c)
  (ContractorLocation c) (ContractorExtendedPublicKey c) (Verbose c)
  (DataDir c) (ConfigFile c) (DebugLevel c) (DeleteData c) (IncludeTests c)
  x (CmswwwLogFile c).

Definition setCmswwwLogFile (x : string) (c : Config) : Config :=
  mkConfig (AdminEmail c) (AdminUser c) (AdminPass c) (ContractorEmail c)
  (ContractorUser c) (ContractorPass c) (ContractorName c)
  (ContractorLocation c) (ContractorExtendedPublicKey c) (Verbose c)
  (DataDir c) (ConfigFile c) (DebugLevel c) (DeleteData c) (IncludeTests c)
  (PoliteiadLogFile c) x.

(** What parsing an option does to the struct. *)
Definition assign (s : Setting) (c : Config) : Config :=
  match s with
  | SetString o v => setString o v c
  | SetBool o b => setBool o b c
  end.

(** *** Errors, the operating system, effects *)

(** The [syscall.Errno] values that occur below. *)
Inductive Errno : Type :=
| ENOENT | EACCES | EISDIR | ENOTDIR | EEXIST | ENOTEMPTY | EIO.

(** The [error] values that reach [Load], by dynamic type:
    [*os.PathError], [*flags.Error], the ini parser's own errors, and the
    two [fmt.Errorf] values that [Load] builds. *)
Inductive error : Type :=
| PathError (op path : string) (errno : Errno)
| FlagsError (t : Flags.ErrorType)
| IniError (file : string)
| SymlinkNotMounted (path link : string)
| CreateDataDirFailed (funcName : string) (cause : error).

(** [_, ok := err.( *os.PathError)] *)
Definition isPathError (e : error) : bool :=
  match e with PathError _ _ _ => true | _ => false end.

(** [os.IsExist(err)] *)
Definition IsExist (e : error) : bool :=
  match e with
  | PathError _ _ EEXIST | PathError _ _ ENOTEMPTY => true
  | _ => false
  end.

(** [os.IsNotExist(err)] *)
Definition IsNotExist (e : error) : bool :=
  match e with
  | PathError _ _ ENOENT => true
  | _ => false
  end.

(** [e, ok := err.( *flags.Error); ok && e.Type == flags.ErrHelp] *)
Definition isHelpError (e : error) : bool :=
  match e with FlagsError t => Flags.isErrHelp t | _ => false end.

(** What [IniParser.ParseFile] finds at a path: the file cannot be
    opened or read (an [*os.PathError] with the given operation and
    errno), its text is not ini syntax, or it holds a list of entries. *)
Inductive FileState : Type :=
| Unreadable (op : string) (errno : Errno)
| Malformed
| Entries (es : list (Flags.IniEntry Setting)).

(** Everything [Load] reads from outside: the package variable
    [sharedconfig.DefaultHomeDir] (declared in a package of the repository
    that is not part of the sources at hand), the command line
    [os.Args[1:]], and the answers of the operating system. *)
Record World : Type := mkWorld {
  DefaultHomeDir : string;
  os_Args : list (Flags.Arg Setting);
  os_Getwd : option string;
  os_ExpandEnv : string -> string;
  os_File : string -> FileState;
  os_MkdirAll : string -> option error;
  os_Readlink : string -> option string
}.

(** What [Load] writes.  [TextUsage] is [usageMessage]
    (["Use <appName> -h to show usage"]). *)
Inductive Text : Type :=
| TextError (e : error)
| TextErrorParsingConfig (e : error)
| TextUsage
| TextWarning (e : error).

(** The effects of [Load], in the order they happen. *)
Inductive Event : Type :=
| OpenFile (path : string)
| MkdirAll (path : string)
| Readlink (path : string)
| Stderr (t : Text)
| Stdout (t : Text).

(** A computation that logs its effects and returns a value or stops with
    an error: [return nil, err] is [fail err]. *)
Definition M (A : Type) : Type := (list Event * (error + A))%type.

Definition ret {A : Type} (a : A) : M A := ([], inr a).

Definition fail {A : Type} (e : error) : M A := ([], inl e).

Definition emit (ev : Event) : M unit := ([ev], inr tt).

Definition bind {A B : Type} (m : M A) (k : A -> M B) : M B :=
  match m with
  | (t, inl e) => (t, inl e)
  | (t, inr a) => let (t', r) := k a in (t ++ t', r)
  end.

Declare Scope load_scope.
Delimit Scope load_scope with load.
Notation "x <- m ;; k" := (bind m (fun x => k))
  (at level 61, m at next level, right associativity) : load_scope.
Notation "m ;; k" := (bind m (fun _ => k))
  (at level 61, right associativity) : load_scope.
Local Open Scope load_scope.

(** *** The functions of config.go *)

Definition defaultDataDir (w : World) : string :=
  Filepath.Join [DefaultHomeDir w; defaultDataDirname].

Definition defaultConfigFile (w : World) : string :=
  Filepath.Join [defaultDataDir w; defaultConfigFilename].

(** [strings.Replace(s, old, new, 1)] for a one-character [old]. *)
Fixpoint replaceFirst (old : ascii) (new s : string) : string :=
  match s with
  | EmptyString => EmptyString
  | String c rest =>
      if Ascii.eqb c old then new ++ rest
      else String c (replaceFirst old new rest)
  end.

(** [cleanAndExpandPath] *)
Definition cleanAndExpandPath (w : World) (path : string) : string :=
  let path :=
    if Filepath.hasTildePrefix path then
      let homeDir := Filepath.Dir (DefaultHomeDir w) in
      replaceFirst "~"%char homeDir path
    else path in
  Filepath.Clean (os_ExpandEnv w path).

(** The default config of [Load]; the fields that the struct literal
    leaves out have their zero values. *)
Definition defaultConfig (w : World) : Config :=
  {| AdminEmail := "admin@example.com";
     AdminUser := "admin";
     AdminPass := "password";
     ContractorEmail := "contractor@example.com";
     ContractorUser := "contractor";
     ContractorPass := "password";
     ContractorName := "John Smith";
     ContractorLocation := "Dallas, TX, USA";
     ContractorExtendedPublicKey := "faketpub";
     Verbose := false;
     DataDir := defaultDataDir w;
     ConfigFile := defaultConfigFile w;
     DebugLevel := defaultLogLevel;
     DeleteData := false;
     IncludeTests := false;
     PoliteiadLogFile := "";
     CmswwwLogFile := "" |}.

(** [parser.Parse()] on the command line of the process. *)
Definition ParseArgs (w : World) (cfg : Config)
  : Config * option Flags.ErrorType :=
  Flags.Parse assign cfg (os_Args w).

(** [flags.NewIniParser(parser).ParseFile(filename)]: opens the file and
    stores its entries into [cfg]. *)
Definition ParseFile (w : World) (cfg : Config) (filename : string)
  : M (Config * option error) :=
  emit (OpenFile filename) ;;
  ret (match os_File w filename with
       | Unreadable op errno => (cfg, Some (PathError op filename errno))
       | Malformed => (cfg, Some (IniError filename))
       | Entries es =>
           let (cfg', ok) := Flags.parseIni assign cfg es in
           (cfg', if ok then None else Some (IniError filename))
       end).

(** Lines 133-143: "Update the data directory if specified". *)
Definition updateDataDir (w : World) (preCfg cfg : Config) : Config :=
  if (DataDir preCfg =? "")%string then cfg
  else
    let cfg :=
      setString datadir (Filepath.Abs (os_Getwd w) (DataDir preCfg)) cfg in
    if (ConfigFile preCfg =? defaultConfigFile w)%string
    then setString configfile
           (Filepath.Join [DataDir cfg; defaultConfigFilename]) cfg
    else setString configfile (cleanAndExpandPath w (ConfigFile preCfg)) cfg.

(** Lines 168-186: [os.MkdirAll(cfg.DataDir, 0700)] and the error it may
    give. *)
Definition createDataDir (w : World) (cfg : Config) : M unit :=
  let funcName := "loadConfig" in
  emit (MkdirAll (DataDir cfg)) ;;
  match os_MkdirAll w (DataDir cfg) with
  | None => ret tt
  | Some err =>
      err <- match err with
             | PathError _ path _ =>
                 if IsExist err then
                   emit (Readlink path) ;;
                   match os_Readlink w path with
                   | Some link => ret (SymlinkNotMounted path link)
                   | None => ret err
                   end
                 else ret err
             | _ => ret err
             end ;;
      let err := CreateDataDirFailed funcName err in
      emit (Stderr (TextError err)) ;;
      fail err
  end.

(** Lines 114-126 of [Load]: the pre-parse of the command line into
    [preCfg], where only a help request is an error. *)
Definition preParseCommandLine (w : World) (preCfg : Config) : M Config :=
  let (preCfg, err) := ParseArgs w preCfg in
  match err with
  | Some Flags.ErrHelp =>
      emit (Stderr (TextError (FlagsError Flags.ErrHelp))) ;;
      fail (FlagsError Flags.ErrHelp)
  | _ => ret preCfg
  end.

(** Lines 145-157 of [Load]: "Load additional config from file".  Returns
    the struct and [configFileError]. *)
Definition loadConfigFile (w : World) (cfg : Config)
  : M (Config * option error) :=
  r <- ParseFile w cfg (ConfigFile cfg) ;;
  let (cfg, err) := r in
  match err with
  | Some err =>
      if negb (isPathError err) then
        emit (Stderr (TextErrorParsingConfig err)) ;;
        emit (Stderr TextUsage) ;;
        fail err
      else ret (cfg, Some err)
  | None => ret (cfg, None)
  end.

(** Lines 159-166 of [Load]: "Parse command line options again to ensure
    they take precedence".  This parser is built with [flags.Default],
    which includes [flags.PrintErrors]: [parser.Parse()] itself writes the
    error it returns to standard error, before [Load] writes the usage
    line. *)
Definition parseCommandLine (w : World) (cfg : Config) : M Config :=
  let (cfg, err) := ParseArgs w cfg in
  match err with
  | Some t =>
      emit (Stderr (TextError (FlagsError t))) ;;
      (if negb (Flags.isErrHelp t) then emit (Stderr TextUsage) else ret tt) ;;
      fail (FlagsError t)
  | None => ret cfg
  end.

(** [Load], block by block. *)
Definition Load (w : World) : M Config :=
  (* Default config. *)
  let cfg := defaultConfig w in
  (* Pre-parse the command line options. *)
  preCfg <- preParseCommandLine w cfg ;;
  (* Update the data directory if specified. *)
  let cfg := updateDataDir w preCfg cfg in
  (* Load additional config from file. *)
  r <- loadConfigFile w cfg ;;
  let (cfg, configFileError) := r in
  (* Parse command line options again to ensure they take precedence. *)
  cfg <- parseCommandLine w cfg ;;
  (* Create the data directory if it doesn't already exist. *)
  createDataDir w cfg ;;
  match configFileError with
  | Some e => emit (Stdout (TextWarning e))
  | None => ret tt
  end ;;
  let cfg :=
    setPoliteiadLogFile
      (Filepath.Join [DataDir cfg; defaultPoliteiadLogFilename]) cfg in
  let cfg :=
    setCmswwwLogFile
      (Filepath.Join [DataDir cfg; defaultCmswwwLogFilename]) cfg in
  ret cfg.

(** *** Notions used to state the properties of [Load] *)

Scheme Equality for StringOption.
Scheme Equality for BoolOption.

(** The value that a list of settings, stored in order, leaves in a
    string option: that of the last setting of the option, if any. *)
Fixpoint lastString (o : StringOption) (ss : list Setting) : option string :=
  match ss with
  | [] => None
  | s :: rest =>
      match lastString o rest with
      | Some v => Some v
      | None =>
          match s with
          | SetString o' v => if StringOption_beq o o' then Some v else None
          | SetBool _ _ => None
          end
      end
  end.

Fixpoint lastBool (o : BoolOption) (ss : list Setting) : option bool :=
  match ss with
  | [] => None
  | s :: rest =>
      match lastBool o rest with
      | Some b => Some b
      | None =>
          match s with
          | SetBool o' b => if BoolOption_beq o o' then Some b else None
          | SetString _ _ => None
          end
      end
  end.

(** Storing a list of settings into a struct, in order. *)
Definition assignAll (ss : list Setting) (c : Config) : Config :=
  fold_left (fun c s => assign s c) ss c.

(** The first of three layers that has a value. *)
Definition layered {A : Type} (cli file : option A) (base : A) : A :=
  match cli, file with
  | Some v, _ => v
  | None, Some v => v
  | None, None => base
  end.

(** The command line as the pre-parse leaves it in [preCfg]. *)
Definition preParse (w : World) : Config * option Flags.ErrorType :=
  ParseArgs w (defaultConfig w).

(** The struct when the config file is about to be loaded: the defaults
    after the update of the data directory. *)
Definition resolved (w : World) : Config :=
  updateDataDir w (fst (preParse w)) (defaultConfig w).

(** The path the config file is loaded from. *)
Definition configPath (w : World) : string := ConfigFile (resolved w).

(** The settings that the config file contributes: its entries when it
    can be read, none otherwise. *)
Definition fileSettings (w : World) : list Setting :=
  match os_File w (configPath w) with
  | Entries es => Flags.iniStored es
  | _ => []
  end.

(** The same world with another file system. *)
Definition withFile (f : string -> FileState) (w : World) : World :=
  {| DefaultHomeDir := DefaultHomeDir w;
     os_Args := os_Args w;
     os_Getwd := os_Getwd w;
     os_ExpandEnv := os_ExpandEnv w;
     os_File := f;
     os_MkdirAll := os_MkdirAll w;
     os_Readlink := os_Readlink w |}.

(** The same world with an empty config file at [path]. *)
Definition withEmptyFile (path : string) (w : World) : World :=
  withFile (fun p => if (p =? path)%string then Entries [] else os_File w p) w.

(** [Load] returned a [Config]. *)
Definition succeeds {A : Type} (m : M A) : bool :=
  match snd m with inr _ => true | inl _ => false end.

(** The struct after the second parse of the command line: the settings
    of the config file, then those of the command line, stored over the
    struct the file is loaded into. *)
Definition merged (w : World) : Config :=
  assignAll (Flags.stored (os_Args w))
    (assignAll (fileSettings w) (resolved w)).

(** The last two assignments of [Load]. *)
Definition withLogFiles (c : Config) : Config :=
  setCmswwwLogFile (Filepath.Join [DataDir c; defaultCmswwwLogFilename])
    (setPoliteiadLogFile
       (Filepath.Join [DataDir c; defaultPoliteiadLogFilename]) c).

(** The config file raises no error other than an [*os.PathError]. *)
Definition fileLoads (w : World) : bool :=
  match os_File w (configPath w) with
  | Unreadable _ _ => true
  | Malformed => false
  | Entries es => Flags.iniValid es
  end.

(** The deferred warning. *)
Definition warning (w : World) : list Event :=
  match os_File w (configPath w) with
  | Unreadable op errno =>
      [Stdout (TextWarning (PathError op (configPath w) errno))]
  | _ => []
  end.

(** What [Load] does on a help request. *)
Definition helpOutcome {A : Type} : M A :=
  ([Stderr (TextError (FlagsError Flags.ErrHelp))],
   inl (FlagsError Flags.ErrHelp)).

(** What [Load] does on a config file that is read and rejected. *)
Definition iniFailure {A : Type} (path : string) : M A :=
  ([OpenFile path; Stderr (TextErrorParsingConfig (IniError path));
    Stderr TextUsage],
   inl (IniError path)).

(** A leading [~] replaced by the directory of the home directory. *)
Definition expandTilde (w : World) (path : string) : string :=
  match path with
  | String "~" rest => (Filepath.Dir (DefaultHomeDir w) ++ rest)%string
  | _ => path
  end.

(** *** Sample worlds *)

(** A world with home directory [/home/user/.cmswww] and working
    directory [/work], where every directory can be created.  The sample
    paths hold no [$], so that [os.ExpandEnv] leaves them as they are. *)
Definition exampleWorld (args : list (Flags.Arg Setting))
    (file : string -> FileState) : World :=
  {| DefaultHomeDir := "/home/user/.cmswww";
     os_Args := args;
     os_Getwd := Some "/work";
     os_ExpandEnv := fun s => s;
     os_File := file;
     os_MkdirAll := fun _ => None;
     os_Readlink := fun _ => None |}.

(** No config file anywhere. *)
Definition noFile : string -> FileState :=
  fun _ => Unreadable "open" ENOENT.

(** A config file that exists and that the user may not read. *)
Definition deniedFile : string -> FileState :=
  fun _ => Unreadable "open" EACCES.

(** A config file that is not ini syntax. *)
Definition malformedFile : string -> FileState := fun _ => Malformed.

(** A config file with three entries. *)
Definition exampleFile : string -> FileState :=
  fun _ => Entries [Flags.IniOpt (SetString adminuser "fileuser");
                    Flags.IniOpt (SetString adminpass "filepass");
                    Flags.IniOpt (SetBool deletedata true)].

(** A config file that sets a relative data directory. *)
Definition datadirFile : string -> FileState :=
  fun _ => Entries [Flags.IniOpt (SetString datadir "var/data")].

(** *** Notions used to state how [Load] ends *)

(** The error that [Load] reports for an error [err] of [os.MkdirAll]:
    the symlink diagnostic when [err] is an [*os.PathError] that
    [os.IsExist] accepts and whose path is a symbolic link, [err] itself
    otherwise. *)
Definition mkdirCause (w : World) (err : error) : error :=
  match err with
  | PathError _ path _ =>
      if IsExist err then
        match os_Readlink w path with
        | Some link => SymlinkNotMounted path link
        | None => err
        end
      else err
  | _ => err
  end.

(** The [os.Readlink] call that goes with it. *)
Definition mkdirProbe (err : error) : list Event :=
  match err with
  | PathError _ path _ => if IsExist err then [Readlink path] else []
  | _ => []
  end.

(** The kinds of effects. *)
Definition isStdout (ev : Event) : bool :=
  match ev with Stdout _ => true | _ => false end.

Definition isStderr (ev : Event) : bool :=
  match ev with Stderr _ => true | _ => false end.

Definition isMkdirAll (ev : Event) : bool :=
  match ev with MkdirAll _ => true | _ => false end.

(** The five ways [Load] ends. *)
Inductive LoadCase (w : World) : Prop :=
| CaseHelp :
    Flags.firstError (os_Args w) = Some Flags.ErrHelp ->
    Load w = helpOutcome -> LoadCase w
| CaseFile :
    Flags.firstError (os_Args w) <> Some Flags.ErrHelp ->
    fileLoads w = false ->
    Load w = iniFailure (configPath w) -> LoadCase w
| CaseArgs (t : Flags.ErrorType) :
    Flags.firstError (os_Args w) = Some t -> t <> Flags.ErrHelp ->
    fileLoads w = true ->
    Load w = ([OpenFile (configPath w); Stderr (TextError (FlagsError t));
               Stderr TextUsage],
              inl (FlagsError t)) -> LoadCase w
| CaseMkdir (e : error) :
    Flags.firstError (os_Args w) = None -> fileLoads w = true ->
    os_MkdirAll w (DataDir (merged w)) = Some e ->
    Load w =
      (OpenFile (configPath w) :: MkdirAll (DataDir (merged w)) ::
         mkdirProbe e ++
         [Stderr (TextError
                    (CreateDataDirFailed "loadConfig" (mkdirCause w e)))],
       inl (CreateDataDirFailed "loadConfig" (mkdirCause w e))) ->
    LoadCase w
| CaseOk :
    Flags.firstError (os_Args w) = None -> fileLoads w = true ->
    os_MkdirAll w (DataDir (merged w)) = None ->
    Load w =
      (OpenFile (configPath w) :: MkdirAll (DataDir (merged w)) :: warning w,
       inr (withLogFiles (merged w))) ->
    LoadCase w.

(** *** More sample worlds *)

(** A world in which the data directory cannot be created: its path is a
    symbolic link to [/mnt/data], which is not there. *)
Definition unmountedWorld (args : list (Flags.Arg Setting))
    (file : string -> FileState) : World :=
  {| DefaultHomeDir := "/home/user/.cmswww";
     os_Args := args;
     os_Getwd := Some "/work";
     os_ExpandEnv := fun s => s;
     os_File := file;
     os_MkdirAll := fun p => Some (PathError "mkdir" p EEXIST);
     os_Readlink := fun _ => Some "/mnt/data" |}.

(** A world in which [os.Getwd] fails. *)
Definition noGetwdWorld (args : list (Flags.Arg Setting))
    (file : string -> FileState) : World :=
  {| DefaultHomeDir := "/home/user/.cmswww";
     os_Args := args;
     os_Getwd := None;
     os_ExpandEnv := fun s => s;
     os_File := file;
     os_MkdirAll := fun _ => None;
     os_Readlink := fun _ => None |}.

(** A file system with the sample config file at the default path and
    unreadable files everywhere else. *)
Definition onlyDefaultFile : string -> FileState :=
  fun p =>
    if (p =? "/home/user/.cmswww/dataload/cmswwwdataload.conf")%string
    then exampleFile p else Unreadable "open" EACCES.

(** The same world with other answers of the operating system about
    files, directories and links. *)
Definition withFileSystem (f : string -> FileState)
    (mk : string -> option error) (rl : string -> option string)
    (w : World) : World :=
  {| DefaultHomeDir := DefaultHomeDir w;
     os_Args := os_Args w;
     os_Getwd := os_Getwd w;
     os_ExpandEnv := os_ExpandEnv w;
     os_File := f;
     os_MkdirAll := mk;
     os_Readlink := rl |}.

(** Only the default data directory cannot be created, and only it is a
    symbolic link. *)
Definition onlyDataDirFails : string -> option error :=
  fun p =>
    if (p =? "/home/user/.cmswww/dataload")%string
    then Some (PathError "mkdir" p EEXIST) else None.

Definition onlyDataDirLinked : string -> option string :=
  fun p =>
    if (p =? "/home/user/.cmswww/dataload")%string
    then Some "/mnt/data" else None.

End Dataload.

(* ===================================================================== *)
(** * Properties of the identity helpers *)
(* ===================================================================== *)

Import Database.

Section IdentityFacts.

Variable PublicKeySize : nat.

Local Abbreviation Identity := (Database.Identity PublicKeySize).
Local Abbreviation zeroKey := (Database.zeroKey PublicKeySize).

Lemma IsIdentityActive_true (id : Identity) :
  IsIdentityActive id = true <->
  Activated id <> 0%Z /\ Deactivated id = 0%Z.
Proof.
  unfold IsIdentityActive.
  rewrite andb_true_iff, negb_true_iff, Z.eqb_neq, Z.eqb_eq.
  reflexivity.
Qed.

Lemma deactivated_not_active (id : Identity) :
  Deactivated id <> 0%Z -> IsIdentityActive id = false.
Proof.
  intros Hd. destruct (IsIdentityActive id) eqn:E; [|reflexivity].
  apply IsIdentityActive_true in E. tauto.
Qed.

Lemma ActiveIdentity_none (i : list Identity) :
  noneActive i -> ActiveIdentity i = (zeroKey, false).
Proof.
  induction i as [|v rest IH]; intros Hnone; simpl.
  - reflexivity.
  - rewrite (Hnone v (or_introl eq_refl)).
    apply IH. intros u Hu. apply Hnone. right. exact Hu.
Qed.

Lemma ActiveIdentity_first (pre post : list Identity) (v : Identity) :
  noneActive pre -> IsIdentityActive v = true ->
  ActiveIdentity (pre ++ v :: post) = (Key v, true).
Proof.
  induction pre as [|u pre IH]; intros Hpre Hv; simpl.
  - rewrite Hv. reflexivity.
  - rewrite (Hpre u (or_introl eq_refl)).
    apply IH; [|exact Hv]. intros x Hx. apply Hpre. right. exact Hx.
Qed.

(** Every sequence either has no active identity or splits at its first
    active one. *)
Lemma first_active_split (i : list Identity) :
  noneActive i \/
  exists pre v post,
    i = pre ++ v :: post /\ noneActive pre /\ IsIdentityActive v = true.
Proof.
  induction i as [|u rest IH].
  - left. intros v [].
  - destruct (IsIdentityActive u) eqn:Hu.
    + right. exists [], u, rest. repeat split; [intros v []|exact Hu].
    + destruct IH as [Hnone | (pre & v & post & -> & Hpre & Hv)].
      * left. intros v [<-|Hin]; [exact Hu | apply Hnone, Hin].
      * right. exists (u :: pre), v, post. repeat split; [|exact Hv].
        intros x [<-|Hin]; [exact Hu | apply Hpre, Hin].
Qed.

Lemma hexdigit_zero : Hex.hexdigit 0 = "0"%char.
Proof. reflexivity. Qed.

Lemma EncodeToString_zeros (n : nat) :
  Hex.EncodeToString (repeat x00 n) =
  string_of_list_ascii (repeat "0"%char (2 * n)).
Proof.
  induction n as [|n IH].
  - reflexivity.
  - replace (2 * S n) with (S (S (2 * n))) by lia.
    simpl repeat. simpl Hex.EncodeToString. rewrite IH.
    simpl. reflexivity.
Qed.

Lemma EncodeToString_length (src : list byte) :
  String.length (Hex.EncodeToString src) = 2 * List.length src.
Proof.
  induction src as [|v rest IH]; simpl; [reflexivity|].
  rewrite IH. lia.
Qed.

(** C4: [IsIdentityActive] is true exactly when [Activated] is not zero
    and [Deactivated] is zero; each of the four combinations of zero and
    non-zero timestamps is decided accordingly. *)
Theorem IsIdentityActive_spec (id : Identity) :
  (IsIdentityActive id = true <->
   Activated id <> 0%Z /\ Deactivated id = 0%Z) /\
  IsIdentityActive id =
    match Z.eq_dec (Activated id) 0, Z.eq_dec (Deactivated id) 0 with
    | left _, left _ => false
    | left _, right _ => false
    | right _, left _ => true
    | right _, right _ => false
    end.
Proof.
  split; [apply IsIdentityActive_true|].
  unfold IsIdentityActive.
  destruct (Z.eq_dec (Activated id) 0) as [Ha|Ha],
           (Z.eq_dec (Deactivated id) 0) as [Hd|Hd].
  - rewrite Ha. reflexivity.
  - rewrite Ha. reflexivity.
  - apply Z.eqb_neq in Ha. rewrite Ha, Hd. reflexivity.
  - apply Z.eqb_neq in Hd. rewrite Hd. apply andb_false_r.
Qed.

(** C3: [ActiveIdentity] returns the zero key and [false] on the empty
    sequence, on a sequence with no active entry and on a sequence whose
    entries all have [Deactivated <> 0]; on any other sequence it returns
    the key of the first active entry, whatever follows that entry (other
    active entries included), and [true]. *)
Theorem ActiveIdentity_spec (i : list Identity) :
  ActiveIdentity (@nil Identity) = (zeroKey, false) /\
  (noneActive i -> ActiveIdentity i = (zeroKey, false)) /\
  ((forall v, In v i -> Deactivated v <> 0%Z) ->
   ActiveIdentity i = (zeroKey, false)) /\
  (forall pre v post,
     i = pre ++ v :: post -> noneActive pre -> IsIdentityActive v = true ->
     ActiveIdentity i = (Key v, true)) /\
  (noneActive i \/
   exists pre v post,
     i = pre ++ v :: post /\ noneActive pre /\ IsIdentityActive v = true).
Proof.
  split; [reflexivity|].
  split; [apply ActiveIdentity_none|].
  split.
  - intros Hd. apply ActiveIdentity_none.
    intros v Hv. apply deactivated_not_active, Hd, Hv.
  - split; [|apply first_active_split].
    intros pre v post -> Hpre Hv. apply ActiveIdentity_first; assumption.
Qed.

(** C10: [ActiveIdentityString] returns the hex encoding of the key that
    [ActiveIdentity] returns, with the same flag; when no identity is
    active this is a string of [2 * PublicKeySize] characters ['0'] with
    [false], which is not the empty string for a key size above zero. *)
Theorem ActiveIdentityString_spec (i : list Identity) :
  ActiveIdentityString i =
    (Hex.EncodeToString (Vector.to_list (fst (ActiveIdentity i))),
     snd (ActiveIdentity i)) /\
  (noneActive i ->
   ActiveIdentityString i =
     (string_of_list_ascii (repeat "0"%char (2 * PublicKeySize)), false) /\
   String.length (fst (ActiveIdentityString i)) = 2 * PublicKeySize /\
   (0 < PublicKeySize -> fst (ActiveIdentityString i) <> "")).
Proof.
  split.
  - unfold ActiveIdentityString. destruct (ActiveIdentity i). reflexivity.
  - intros Hnone.
    assert (Hlen : String.length (fst (ActiveIdentityString i)) =
                   2 * PublicKeySize).
    { unfold ActiveIdentityString. rewrite (ActiveIdentity_none i Hnone).
      unfold Database.zeroKey. rewrite Vector.to_list_const.
      simpl fst. rewrite EncodeToString_length, repeat_length. reflexivity. }
    split; [|split; [exact Hlen|]].
    + unfold ActiveIdentityString. rewrite (ActiveIdentity_none i Hnone).
      unfold Database.zeroKey. rewrite Vector.to_list_const.
      rewrite EncodeToString_zeros. reflexivity.
    + intros Hpos E. rewrite E in Hlen. simpl in Hlen. lia.
Qed.

End IdentityFacts.

Lemma ActiveIdentity_spec_witness :
  ActiveIdentity
    [Database.retiredIdentity; Database.firstActiveIdentity;
     Database.secondActiveIdentity] =
    (Database.sampleKey x0b, true) /\
  ActiveIdentity [Database.retiredIdentity; Database.retiredIdentity] =
    (Database.zeroKey 32, false).
Proof.
  split.
  - apply (proj1 (proj2 (proj2 (proj2
             (ActiveIdentity_spec 32
                [Database.retiredIdentity; Database.firstActiveIdentity;
                 Database.secondActiveIdentity]))))
             [Database.retiredIdentity] Database.firstActiveIdentity
             [Database.secondActiveIdentity]).
    + reflexivity.
    + intros v [<-|[]]. reflexivity.
    + reflexivity.
  - apply (proj1 (proj2 (proj2
             (ActiveIdentity_spec 32
                [Database.retiredIdentity; Database.retiredIdentity])))).
    intros v [<-|[<-|[]]]; discriminate.
Defined.

Lemma ActiveIdentityString_spec_witness :
  ActiveIdentityString [Database.retiredIdentity] =
    ("0000000000000000000000000000000000000000000000000000000000000000",
     false).
Proof.
  refine (eq_trans
            (proj1 (proj2 (ActiveIdentityString_spec 32
                             [Database.retiredIdentity]) _))
            eq_refl).
  intros v [<-|[]]. reflexivity.
Defined.

(* ===================================================================== *)
(** * Properties of the path functions *)
(* ===================================================================== *)

Section FilepathFacts.

Import Filepath.

(** ** Elements and separators *)

Lemma split_nonempty (p : string) : split p <> [].
Proof.
  destruct p as [|c rest]; simpl; [discriminate|].
  destruct (IsPathSeparator c); [discriminate|].
  destruct (split rest); discriminate.
Qed.

Lemma split_app_separator (a b : string) :
  split (a ++ String Separator b) = split a ++ split b.
Proof.
  induction a as [|c a IH]; simpl.
  - reflexivity.
  - destruct (IsPathSeparator c).
    + rewrite IH. reflexivity.
    + rewrite IH. destruct (split a) as [|e es] eqn:E.
      * destruct (split_nonempty a E).
      * reflexivity.
Qed.

Lemma split_noSeparator (s : string) : noSeparator s = true -> split s = [s].
Proof.
  induction s as [|c s IH]; simpl; intros H; [reflexivity|].
  apply andb_true_iff in H. destruct H as [Hc Hs].
  apply negb_true_iff in Hc. rewrite Hc, (IH Hs). reflexivity.
Qed.

Lemma split_elements (p : string) :
  Forall (fun e => noSeparator e = true) (split p).
Proof.
  induction p as [|c p IH]; simpl.
  - repeat constructor.
  - destruct (IsPathSeparator c) eqn:Hc.
    + constructor; [reflexivity|exact IH].
    + destruct (split p) as [|e es].
      * repeat constructor. simpl. rewrite Hc. reflexivity.
      * inversion IH; subst. constructor; [|assumption].
        simpl. rewrite Hc. assumption.
Qed.

Lemma joinSep_cons (e : string) (l : list string) :
  l <> [] -> joinSep (e :: l) = (e ++ String Separator (joinSep l))%string.
Proof. destruct l; [congruence|reflexivity]. Qed.

Lemma string_app_assoc (a b c : string) :
  ((a ++ b) ++ c = a ++ (b ++ c))%string.
Proof. induction a; simpl; congruence. Qed.

Lemma string_app_nil_r (a : string) : (a ++ "" = a)%string.
Proof. induction a; simpl; congruence. Qed.

Lemma joinSep_snoc (l : list string) (x : string) :
  l <> [] ->
  joinSep (l ++ [x]) = (joinSep l ++ String Separator x)%string.
Proof.
  induction l as [|e l IH]; [congruence|]. intros _.
  destruct l as [|e' l'].
  - reflexivity.
  - change ((e :: e' :: l') ++ [x]) with (e :: ((e' :: l') ++ [x])).
    rewrite (joinSep_cons e ((e' :: l') ++ [x])) by discriminate.
    rewrite IH by discriminate.
    rewrite (joinSep_cons e (e' :: l')) by discriminate.
    rewrite string_app_assoc. reflexivity.
Qed.

Lemma split_joinSep (l : list string) :
  l <> [] -> Forall (fun e => noSeparator e = true) l ->
  split (joinSep l) = l.
Proof.
  induction l as [|e l IH]; [congruence|]. intros _ Hall.
  inversion Hall as [|? ? He Hl]; subst.
  destruct l as [|e' l'].
  - simpl. apply split_noSeparator, He.
  - rewrite joinSep_cons by discriminate.
    rewrite split_app_separator, IH by (discriminate || assumption).
    rewrite (split_noSeparator e He). reflexivity.
Qed.

Lemma uptoLastSeparator_noSeparator (s : string) :
  noSeparator s = true -> uptoLastSeparator s = "".
Proof.
  induction s as [|c s IH]; simpl; intros H; [reflexivity|].
  apply andb_true_iff in H. destruct H as [Hc Hs].
  rewrite (IH Hs). apply negb_true_iff in Hc. rewrite Hc. reflexivity.
Qed.

Lemma uptoLastSeparator_child (p name : string) :
  noSeparator name = true ->
  uptoLastSeparator (p ++ String Separator name) =
  (p ++ String Separator "")%string.
Proof.
  intros Hn. induction p as [|c p IH]; simpl.
  - rewrite (uptoLastSeparator_noSeparator name Hn). reflexivity.
  - rewrite IH. destruct p; reflexivity.
Qed.

Lemma cleanElems_app (rooted : bool) (l1 l2 out : list string) :
  cleanElems rooted out (l1 ++ l2) =
  cleanElems rooted (cleanElems rooted out l1) l2.
Proof.
  revert out. induction l1 as [|e l1 IH]; intros out; simpl; [reflexivity|].
  destruct (e =? "")%string; [apply IH|].
  destruct (e =? ".")%string; [apply IH|].
  destruct (e =? "..")%string; [|apply IH].
  destruct out as [|top below]; [apply IH|].
  destruct (top =? "..")%string; apply IH.
Qed.

Lemma cleanElems_appended (rooted : bool) (below rest : list string)
    (e : string) :
  appended rooted below e ->
  cleanElems rooted below (e :: rest) = cleanElems rooted (e :: below) rest.
Proof.
  intros (He & Hdot & _ & Hdd). simpl.
  apply String.eqb_neq in He. rewrite He.
  apply String.eqb_neq in Hdot. rewrite Hdot.
  destruct (String.eqb_spec e "..") as [->|Hne]; [|reflexivity].
  destruct (Hdd eq_refl) as (-> & [->|(b & ->)]); reflexivity.
Qed.

Lemma appended_dotdot (below : list string) :
  below = [] \/ (exists b, below = ".." :: b) -> appended false below "..".
Proof.
  intros H. unfold appended.
  split; [discriminate|]. split; [discriminate|]. split; [reflexivity|].
  intros _. split; [reflexivity|exact H].
Qed.

Lemma cleanOutput_tail (rooted : bool) (e : string) (below : list string) :
  cleanOutput rooted (e :: below) -> cleanOutput rooted below.
Proof. intros [_ H]. exact H. Qed.

Lemma cleanElems_cleanOutput (rooted : bool) (elems out : list string) :
  Forall (fun e => noSeparator e = true) elems ->
  cleanOutput rooted out -> cleanOutput rooted (cleanElems rooted out elems).
Proof.
  intros Hall. revert out.
  induction Hall as [|e elems He Hall IH]; intros out Hout; simpl;
    [exact Hout|].
  destruct (String.eqb_spec e "") as [|Hne]; [apply IH, Hout|].
  destruct (String.eqb_spec e ".") as [|Hnd]; [apply IH, Hout|].
  destruct (String.eqb_spec e "..") as [->|Hndd].
  - destruct out as [|top below].
    + destruct rooted; apply IH; [exact Hout|].
      split; [|exact I]. apply appended_dotdot. left. reflexivity.
    + destruct (String.eqb_spec top "..") as [->|Htop].
      * destruct rooted; apply IH; [exact Hout|].
        split; [|exact Hout]. apply appended_dotdot.
        right. eexists. reflexivity.
      * apply IH. eapply cleanOutput_tail, Hout.
  - apply IH. split; [|exact Hout].
    split; [exact Hne|]. split; [exact Hnd|]. split; [exact He|].
    intros E. contradiction.
Qed.

(** Cleaning the elements of a clean output again gives it back. *)
Lemma cleanElems_replay (rooted : bool) (out rest : list string) :
  cleanOutput rooted out ->
  cleanElems rooted [] (rev out ++ rest) = cleanElems rooted out rest.
Proof.
  revert rest. induction out as [|e below IH]; intros rest Hout.
  - reflexivity.
  - destruct Hout as [He Hbelow]. simpl rev. rewrite <- app_assoc. simpl app.
    rewrite (IH (e :: rest) Hbelow). apply cleanElems_appended, He.
Qed.

Lemma cleanOutput_noSeparator (rooted : bool) (out : list string) :
  cleanOutput rooted out -> Forall (fun e => noSeparator e = true) out.
Proof.
  induction out as [|e below IH]; intros H; constructor.
  - apply H.
  - apply IH, H.
Qed.

Lemma IsAbs_app (a b : string) : a <> "" -> IsAbs (a ++ b) = IsAbs a.
Proof. destruct a; [congruence|reflexivity]. Qed.

Lemma noSeparator_IsAbs (e rest : string) :
  e <> "" -> noSeparator e = true -> IsAbs (e ++ rest) = false.
Proof.
  destruct e as [|c e]; [congruence|]. simpl. intros _ H.
  apply andb_true_iff in H. destruct H as [Hc _].
  apply negb_true_iff in Hc. exact Hc.
Qed.

Lemma Clean_eq (p : string) :
  p <> "" -> Clean p = cleaned (IsAbs p) (cleanElems (IsAbs p) [] (split p)).
Proof.
  intros H. unfold Clean. apply String.eqb_neq in H. rewrite H. reflexivity.
Qed.

Lemma isFileName_appended (rooted : bool) (below : list string)
    (name : string) :
  isFileName name = true -> appended rooted below name.
Proof.
  unfold isFileName. rewrite !andb_true_iff, !negb_true_iff.
  intros (((Hs & He) & Hd) & Hdd).
  apply String.eqb_neq in He, Hd, Hdd.
  split; [exact He|]. split; [exact Hd|]. split; [exact Hs|].
  intros E. contradiction.
Qed.

(** ** A file name joined under a directory *)

Lemma cleanOutput_elements (rooted : bool) (out : list string) :
  cleanOutput rooted out ->
  Forall (fun e => e <> "" /\ noSeparator e = true) out.
Proof.
  induction out as [|e below IH]; intros H; constructor.
  - destruct H as [(He & _ & Hs & _) _]. split; assumption.
  - apply IH, H.
Qed.

Lemma cleanElems_split_cleanOutput (p : string) :
  cleanOutput (IsAbs p) (cleanElems (IsAbs p) [] (split p)).
Proof. apply cleanElems_cleanOutput; [apply split_elements|exact I]. Qed.

Lemma isFileName_facts (name : string) :
  isFileName name = true -> name <> "" /\ noSeparator name = true.
Proof.
  intros H. destruct (isFileName_appended false [] name H) as (He & _ & Hs & _).
  split; assumption.
Qed.

(** Cleaning a path with one more file name appends the name. *)
Lemma Clean_child (d name : string) :
  d <> "" -> isFileName name = true ->
  Clean (d ++ String Separator name) =
  cleaned (IsAbs d) (name :: cleanElems (IsAbs d) [] (split d)).
Proof.
  intros Hd Hn.
  rewrite Clean_eq by (destruct d; [congruence|discriminate]).
  rewrite (IsAbs_app d _ Hd), split_app_separator, cleanElems_app.
  destruct (isFileName_facts name Hn) as [_ Hs].
  rewrite (split_noSeparator name Hs).
  rewrite (cleanElems_appended (IsAbs d) _ [] name)
    by (apply isFileName_appended, Hn).
  reflexivity.
Qed.

Lemma Clean_fileName (name : string) :
  isFileName name = true -> Clean name = name.
Proof.
  intros Hn. destruct (isFileName_facts name Hn) as [He Hs].
  rewrite Clean_eq by exact He.
  replace (IsAbs name) with false
    by (symmetry; rewrite <- (string_app_nil_r name);
        apply noSeparator_IsAbs; assumption).
  rewrite (split_noSeparator name Hs).
  rewrite (cleanElems_appended false [] [] name)
    by (apply isFileName_appended, Hn).
  unfold cleaned. simpl. apply String.eqb_neq in He. rewrite He. reflexivity.
Qed.

(** Cleaning a cleaned path followed by a separator gives it back. *)
Lemma Clean_cleaned_separator (rooted : bool) (out : list string) :
  out <> [] -> cleanOutput rooted out ->
  let P := if rooted then String Separator (joinSep (rev out))
           else joinSep (rev out) in
  Clean (P ++ String Separator "") = cleaned rooted out.
Proof.
  intros Hne Hout P.
  assert (Hrev : rev out <> []).
  { intros E. apply Hne. rewrite <- (rev_involutive out), E. reflexivity. }
  assert (Hall : Forall (fun e => e <> "" /\ noSeparator e = true) (rev out)).
  { apply Forall_rev, (cleanOutput_elements rooted), Hout. }
  assert (Hseps : Forall (fun e => noSeparator e = true) (rev out)).
  { eapply Forall_impl; [|exact Hall]. intros e [_ H]. exact H. }
  assert (Habs : IsAbs (P ++ String Separator "") = rooted).
  { unfold P. destruct rooted; [reflexivity|].
    destruct (rev out) as [|e l] eqn:E; [congruence|].
    inversion Hall as [|? ? [He Hs] _]; subst.
    destruct l as [|e' l'].
    - simpl joinSep. apply noSeparator_IsAbs; assumption.
    - rewrite joinSep_cons by discriminate. rewrite string_app_assoc.
      apply noSeparator_IsAbs; assumption. }
  rewrite Clean_eq
    by (unfold P; destruct rooted, (joinSep (rev out)); discriminate).
  rewrite Habs, split_app_separator.
  assert (Hsplit : cleanElems rooted [] (split P ++ split "") = out).
  { unfold P. destruct rooted.
    - change (split (String Separator (joinSep (rev out))))
        with ("" :: split (joinSep (rev out))).
      rewrite (split_joinSep _ Hrev Hseps).
      change (cleanElems true [] (("" :: rev out) ++ split ""))
        with (cleanElems true [] (rev out ++ split "")).
      rewrite (cleanElems_replay true out _ Hout). reflexivity.
    - rewrite (split_joinSep _ Hrev Hseps).
      rewrite (cleanElems_replay false out _ Hout). reflexivity. }
  rewrite Hsplit. reflexivity.
Qed.

(** The directory of a file name joined under [d] is [d], cleaned. *)
Lemma Dir_Join_child (d name : string) :
  isFileName name = true -> Dir (Join [d; name]) = Clean d.
Proof.
  intros Hn. destruct (isFileName_facts name Hn) as [He Hs].
  assert (Hneb : (name =? "")%string = false) by (apply String.eqb_neq, He).
  unfold Dir. destruct (String.eqb_spec d "") as [->|Hd].
  - simpl Join. rewrite Hneb, (Clean_fileName name Hn).
    rewrite (uptoLastSeparator_noSeparator name Hs). reflexivity.
  - unfold Join. apply String.eqb_neq in Hd. rewrite Hd.
    apply String.eqb_neq in Hd.
    change (joinSep [d; name]) with (d ++ String Separator name)%string.
    rewrite (Clean_child d name Hd Hn), (Clean_eq d Hd).
    pose proof (cleanElems_split_cleanOutput d) as Hout.
    set (rooted := IsAbs d) in *.
    set (out := cleanElems rooted [] (split d)) in *.
    destruct out as [|e below] eqn:Eout.
    + unfold cleaned. simpl rev. simpl joinSep.
      destruct rooted.
      * rewrite (uptoLastSeparator_child "" name Hs
                 : uptoLastSeparator (String Separator name) = _).
        reflexivity.
      * rewrite Hneb, (uptoLastSeparator_noSeparator name Hs). reflexivity.
    + rewrite <- Eout in *.
      assert (Hne : out <> []) by (rewrite Eout; discriminate).
      assert (Hrev : rev out <> []).
      { intros E. apply Hne. rewrite <- (rev_involutive out), E. reflexivity. }
      assert (Hc : cleaned rooted (name :: out) =
                   ((if rooted then String Separator (joinSep (rev out))
                     else joinSep (rev out)) ++ String Separator name)%string).
      { unfold cleaned. simpl rev. rewrite (joinSep_snoc _ name Hrev).
        destruct rooted; [reflexivity|].
        destruct (joinSep (rev out)); reflexivity. }
      rewrite Hc, (uptoLastSeparator_child _ name Hs).
      apply (Clean_cleaned_separator rooted out Hne Hout).
Qed.

End FilepathFacts.

(* ===================================================================== *)
(** * Properties of the option parser *)
(* ===================================================================== *)

Section ParserFacts.

Context {Cfg Setting : Type} (assign : Setting -> Cfg -> Cfg).

Lemma Parse_stored (args : list (Flags.Arg Setting)) (cfg : Cfg) :
  Flags.Parse assign cfg args =
  (fold_left (fun c s => assign s c) (Flags.stored args) cfg,
   Flags.firstError args).
Proof.
  revert cfg. induction args as [|a rest IH]; intros cfg; simpl.
  - reflexivity.
  - destruct a; simpl; auto.
Qed.

Lemma parseIni_stored (es : list (Flags.IniEntry Setting)) (cfg : Cfg) :
  Flags.parseIni assign cfg es =
  (fold_left (fun c s => assign s c) (Flags.iniStored es) cfg,
   Flags.iniValid es).
Proof.
  revert cfg. induction es as [|e rest IH]; intros cfg; simpl.
  - reflexivity.
  - destruct e; simpl; auto.
Qed.

Lemma firstError_app_accepted (pre rest : list (Flags.Arg Setting)) :
  forallb Flags.accepted pre = true ->
  Flags.firstError (pre ++ rest) = Flags.firstError rest.
Proof.
  induction pre as [|a pre IH]; simpl; intros H; [reflexivity|].
  apply andb_true_iff in H. destruct H as [Ha Hpre].
  destruct a; simpl in Ha; try discriminate; auto.
Qed.

Lemma firstError_None (args : list (Flags.Arg Setting)) :
  Flags.firstError args = None <-> forallb Flags.accepted args = true.
Proof.
  induction args as [|a rest IH]; simpl; [tauto|].
  destruct a; simpl; try exact IH; split; discriminate.
Qed.

End ParserFacts.

(* ===================================================================== *)
(** * Properties of the configuration loader *)
(* ===================================================================== *)

Import Dataload.
Local Open Scope load_scope.

(** ** Fields and settings *)

Lemma StringOption_beq_eq (o o' : StringOption) :
  StringOption_beq o o' = true <-> o = o'.
Proof. destruct o, o'; simpl; split; congruence. Qed.

Lemma BoolOption_beq_eq (o o' : BoolOption) :
  BoolOption_beq o o' = true <-> o = o'.
Proof. destruct o, o'; simpl; split; congruence. Qed.

Lemma getString_setString (o o' : StringOption) (x : string) (c : Config) :
  getString o (setString o' x c) =
  if StringOption_beq o o' then x else getString o c.
Proof. destruct o, o'; reflexivity. Qed.

Lemma getBool_setString (o : BoolOption) (o' : StringOption) x c :
  getBool o (setString o' x c) = getBool o c.
Proof. destruct o, o'; reflexivity. Qed.

Lemma getBool_setBool (o o' : BoolOption) (x : bool) (c : Config) :
  getBool o (setBool o' x c) =
  if BoolOption_beq o o' then x else getBool o c.
Proof. destruct o, o'; reflexivity. Qed.

Lemma getString_setBool (o : StringOption) (o' : BoolOption) x c :
  getString o (setBool o' x c) = getString o c.
Proof. destruct o, o'; reflexivity. Qed.

Lemma getString_logFiles (o : StringOption) (x y : string) (c : Config) :
  getString o (setCmswwwLogFile y (setPoliteiadLogFile x c)) = getString o c.
Proof. destruct o; reflexivity. Qed.

Lemma getBool_logFiles (o : BoolOption) (x y : string) (c : Config) :
  getBool o (setCmswwwLogFile y (setPoliteiadLogFile x c)) = getBool o c.
Proof. destruct o; reflexivity. Qed.

Lemma getString_assignAll (o : StringOption) (ss : list Setting) (c : Config) :
  getString o (assignAll ss c) =
  match lastString o ss with Some v => v | None => getString o c end.
Proof.
  unfold assignAll. revert c.
  induction ss as [|s rest IH]; intros c; simpl; [reflexivity|].
  rewrite IH. destruct (lastString o rest); [reflexivity|].
  destruct s as [o' v|o' b]; simpl.
  - rewrite getString_setString. destruct (StringOption_beq o o'); reflexivity.
  - apply getString_setBool.
Qed.

Lemma getBool_assignAll (o : BoolOption) (ss : list Setting) (c : Config) :
  getBool o (assignAll ss c) =
  match lastBool o ss with Some b => b | None => getBool o c end.
Proof.
  unfold assignAll. revert c.
  induction ss as [|s rest IH]; intros c; simpl; [reflexivity|].
  rewrite IH. destruct (lastBool o rest); [reflexivity|].
  destruct s as [o' v|o' b]; simpl.
  - apply getBool_setString.
  - rewrite getBool_setBool. destruct (BoolOption_beq o o'); reflexivity.
Qed.

(** ** The blocks of [Load] *)

Lemma ParseArgs_stored (w : World) (cfg : Config) :
  ParseArgs w cfg =
  (assignAll (Flags.stored (os_Args w)) cfg, Flags.firstError (os_Args w)).
Proof. apply Parse_stored. Qed.

Lemma preParseCommandLine_help (w : World) (c : Config) :
  Flags.firstError (os_Args w) = Some Flags.ErrHelp ->
  preParseCommandLine w c = helpOutcome.
Proof.
  intros H. unfold preParseCommandLine. rewrite ParseArgs_stored, H.
  reflexivity.
Qed.

Lemma preParseCommandLine_continue (w : World) (c : Config) :
  Flags.firstError (os_Args w) <> Some Flags.ErrHelp ->
  preParseCommandLine w c = ret (assignAll (Flags.stored (os_Args w)) c).
Proof.
  intros H. unfold preParseCommandLine. rewrite ParseArgs_stored.
  destruct (Flags.firstError (os_Args w)) as [[]|]; try reflexivity.
  contradiction H. reflexivity.
Qed.

Lemma loadConfigFile_eq (w : World) (c : Config) :
  loadConfigFile w c =
  match os_File w (ConfigFile c) with
  | Unreadable op errno =>
      ([OpenFile (ConfigFile c)],
       inr (c, Some (PathError op (ConfigFile c) errno)))
  | Malformed => iniFailure (ConfigFile c)
  | Entries es =>
      if Flags.iniValid es
      then ([OpenFile (ConfigFile c)],
            inr (assignAll (Flags.iniStored es) c, None))
      else iniFailure (ConfigFile c)
  end.
Proof.
  unfold loadConfigFile, ParseFile.
  destruct (os_File w (ConfigFile c)) as [op errno| |es]; try reflexivity.
  rewrite parseIni_stored. destruct (Flags.iniValid es); reflexivity.
Qed.

Lemma parseCommandLine_eq (w : World) (c : Config) :
  parseCommandLine w c =
  match Flags.firstError (os_Args w) with
  | None => ret (assignAll (Flags.stored (os_Args w)) c)
  | Some t =>
      (Stderr (TextError (FlagsError t)) ::
         (if Flags.isErrHelp t then [] else [Stderr TextUsage]),
       inl (FlagsError t))
  end.
Proof.
  unfold parseCommandLine. rewrite ParseArgs_stored.
  destruct (Flags.firstError (os_Args w)) as [t|]; [|reflexivity].
  destruct t; reflexivity.
Qed.

Lemma createDataDir_ok (w : World) (c : Config) :
  os_MkdirAll w (DataDir c) = None ->
  createDataDir w c = ([MkdirAll (DataDir c)], inr tt).
Proof. intros H. unfold createDataDir. rewrite H. reflexivity. Qed.

Lemma createDataDir_error (w : World) (c : Config) (e : error) :
  os_MkdirAll w (DataDir c) = Some e ->
  exists t cause,
    createDataDir w c = (MkdirAll (DataDir c) :: t,
                         inl (CreateDataDirFailed "loadConfig" cause)).
Proof.
  intros H. unfold createDataDir. rewrite H.
  destruct e as [op path errno| | | |]; try (eexists _, _; reflexivity).
  destruct (IsExist (PathError op path errno)); [|eexists _, _; reflexivity].
  cbn [bind emit]. destruct (os_Readlink w path); eexists _, _; reflexivity.
Qed.

Lemma resolved_eq (w : World) :
  resolved w =
  updateDataDir w (assignAll (Flags.stored (os_Args w)) (defaultConfig w))
    (defaultConfig w).
Proof. unfold resolved, preParse. rewrite ParseArgs_stored. reflexivity. Qed.

Lemma Load_help (w : World) :
  Flags.firstError (os_Args w) = Some Flags.ErrHelp -> Load w = helpOutcome.
Proof.
  intros H. unfold Load. rewrite (preParseCommandLine_help w _ H).
  reflexivity.
Qed.

Lemma Load_ini_failure (w : World) :
  Flags.firstError (os_Args w) <> Some Flags.ErrHelp ->
  fileLoads w = false ->
  Load w = iniFailure (configPath w).
Proof.
  intros Hh Hf. unfold Load.
  rewrite (preParseCommandLine_continue w _ Hh). cbn [bind ret app].
  rewrite <- resolved_eq, loadConfigFile_eq. fold (configPath w).
  unfold fileLoads in Hf.
  destruct (os_File w (configPath w)) as [op errno| |es];
    [discriminate|reflexivity|].
  rewrite Hf. reflexivity.
Qed.

Lemma Load_args_failure (w : World) (t : Flags.ErrorType) :
  Flags.firstError (os_Args w) = Some t -> t <> Flags.ErrHelp ->
  fileLoads w = true ->
  Load w = ([OpenFile (configPath w); Stderr (TextError (FlagsError t));
             Stderr TextUsage],
            inl (FlagsError t)).
Proof.
  intros Ht Hh Hf. unfold Load.
  rewrite preParseCommandLine_continue by (rewrite Ht; congruence).
  cbn [bind ret app].
  rewrite <- resolved_eq, loadConfigFile_eq. fold (configPath w).
  unfold fileLoads in Hf.
  destruct (os_File w (configPath w)) as [op errno| |es]; [|discriminate|].
  - cbn [bind]. rewrite parseCommandLine_eq, Ht.
    destruct t; try reflexivity. contradiction Hh; reflexivity.
  - rewrite Hf. cbn [bind]. rewrite parseCommandLine_eq, Ht.
    destruct t; try reflexivity. contradiction Hh; reflexivity.
Qed.

Lemma Load_parsed (w : World) :
  Flags.firstError (os_Args w) = None -> fileLoads w = true ->
  Load w =
  (_ <- (([OpenFile (configPath w)], inr tt) : M unit) ;;
   _ <- createDataDir w (merged w) ;;
   _ <- ((warning w, inr tt) : M unit) ;;
   ret (withLogFiles (merged w))).
Proof.
  intros Ht Hf. unfold Load.
  rewrite preParseCommandLine_continue by (rewrite Ht; congruence).
  cbn [bind ret app].
  rewrite <- resolved_eq, loadConfigFile_eq. fold (configPath w).
  unfold fileLoads in Hf. unfold merged, warning, fileSettings.
  destruct (os_File w (configPath w)) as [op errno| |es]; [|discriminate|].
  - cbn [bind]. rewrite parseCommandLine_eq, Ht.
    cbn [bind ret app assignAll fold_left].
    destruct (createDataDir w _) as [t [e|[]]]; reflexivity.
  - rewrite Hf. cbn [bind]. rewrite parseCommandLine_eq, Ht. cbn [bind ret app].
    destruct (createDataDir w _) as [t [e|[]]]; reflexivity.
Qed.

Lemma Load_ok (w : World) :
  Flags.firstError (os_Args w) = None -> fileLoads w = true ->
  os_MkdirAll w (DataDir (merged w)) = None ->
  Load w =
  (OpenFile (configPath w) :: MkdirAll (DataDir (merged w)) :: warning w,
   inr (withLogFiles (merged w))).
Proof.
  intros Ht Hf Hm. rewrite (Load_parsed w Ht Hf), (createDataDir_ok w _ Hm).
  cbn [bind ret app]. rewrite app_nil_r. reflexivity.
Qed.

Lemma Load_mkdir_failure (w : World) (e : error) :
  Flags.firstError (os_Args w) = None -> fileLoads w = true ->
  os_MkdirAll w (DataDir (merged w)) = Some e ->
  exists t cause,
    Load w = (OpenFile (configPath w) :: MkdirAll (DataDir (merged w)) :: t,
              inl (CreateDataDirFailed "loadConfig" cause)).
Proof.
  intros Ht Hf Hm. rewrite (Load_parsed w Ht Hf).
  destruct (createDataDir_error w _ e Hm) as (t & cause & ->).
  exists t, cause. reflexivity.
Qed.

(** A successful [Load] went through every block. *)
Lemma Load_success (w : World) (t : list Event) (cfg : Config) :
  Load w = (t, inr cfg) ->
  Flags.firstError (os_Args w) = None /\ fileLoads w = true /\
  os_MkdirAll w (DataDir (merged w)) = None /\
  cfg = withLogFiles (merged w) /\
  t = OpenFile (configPath w) :: MkdirAll (DataDir (merged w)) :: warning w.
Proof.
  intros H.
  destruct (Flags.firstError (os_Args w)) as [ty|] eqn:Ht.
  - destruct (Flags.isErrHelp ty) eqn:Hh.
    + destruct ty; try discriminate. rewrite (Load_help w Ht) in H.
      discriminate.
    + assert (Hne : ty <> Flags.ErrHelp) by (intros ->; discriminate).
      destruct (fileLoads w) eqn:Hf.
      * rewrite (Load_args_failure w ty Ht Hne Hf) in H. discriminate.
      * rewrite Load_ini_failure in H; [discriminate| |exact Hf].
        rewrite Ht. congruence.
  - destruct (fileLoads w) eqn:Hf.
    + destruct (os_MkdirAll w (DataDir (merged w))) as [e|] eqn:Hm.
      * destruct (Load_mkdir_failure w e Ht Hf Hm) as (t' & cause & E).
        rewrite E in H. discriminate.
      * rewrite (Load_ok w Ht Hf Hm) in H. inversion H. auto.
    + rewrite Load_ini_failure in H; [discriminate| |exact Hf].
      rewrite Ht. discriminate.
Qed.

(** ** Precedence of the sources *)

Lemma resolved_other (w : World) (o : StringOption) :
  o <> datadir -> o <> configfile ->
  getString o (resolved w) = getString o (defaultConfig w).
Proof.
  intros Hd Hc. unfold resolved, updateDataDir.
  destruct (DataDir (fst (preParse w)) =? "")%string; [reflexivity|].
  destruct (ConfigFile (fst (preParse w)) =? defaultConfigFile w)%string;
    rewrite !getString_setString;
    destruct o; try reflexivity; congruence.
Qed.

Lemma resolved_bool (w : World) (o : BoolOption) :
  getBool o (resolved w) = getBool o (defaultConfig w).
Proof.
  unfold resolved, updateDataDir.
  destruct (DataDir (fst (preParse w)) =? "")%string; [reflexivity|].
  destruct (ConfigFile (fst (preParse w)) =? defaultConfigFile w)%string;
    rewrite !getBool_setString; reflexivity.
Qed.

Lemma getString_merged (w : World) (o : StringOption) :
  getString o (merged w) =
  layered (lastString o (Flags.stored (os_Args w)))
          (lastString o (fileSettings w))
          (getString o (resolved w)).
Proof.
  unfold merged, layered. rewrite !getString_assignAll.
  destruct (lastString o (Flags.stored (os_Args w))); reflexivity.
Qed.

Lemma getBool_merged (w : World) (o : BoolOption) :
  getBool o (merged w) =
  layered (lastBool o (Flags.stored (os_Args w)))
          (lastBool o (fileSettings w))
          (getBool o (resolved w)).
Proof.
  unfold merged, layered. rewrite !getBool_assignAll.
  destruct (lastBool o (Flags.stored (os_Args w))); reflexivity.
Qed.

(** ** The config file *)

Lemma configPath_withFile (f : string -> FileState) (w : World) :
  configPath (withFile f w) = configPath w.
Proof. reflexivity. Qed.

Lemma resolved_withFile (f : string -> FileState) (w : World) :
  resolved (withFile f w) = resolved w.
Proof. reflexivity. Qed.

Lemma fileLoads_unreadable (w : World) (op : string) (errno : Errno) :
  os_File w (configPath w) = Unreadable op errno -> fileLoads w = true.
Proof. intros H. unfold fileLoads. rewrite H. reflexivity. Qed.

Lemma withEmptyFile_at (w : World) :
  os_File (withEmptyFile (configPath w) w)
          (configPath (withEmptyFile (configPath w) w)) = Entries [].
Proof.
  unfold withEmptyFile. rewrite configPath_withFile. simpl.
  rewrite String.eqb_refl. reflexivity.
Qed.

Lemma merged_unreadable (w : World) (op : string) (errno : Errno) :
  os_File w (configPath w) = Unreadable op errno ->
  merged (withEmptyFile (configPath w) w) = merged w.
Proof.
  intros H. unfold merged, fileSettings.
  rewrite withEmptyFile_at, H. reflexivity.
Qed.

(** An unreadable config file changes nothing but the warning: [Load]
    returns what it returns with an empty file in its place. *)
Lemma Load_unreadable (w : World) (op : string) (errno : Errno) :
  os_File w (configPath w) = Unreadable op errno ->
  let w' := withEmptyFile (configPath w) w in
  snd (Load w) = snd (Load w') /\
  fst (Load w) =
    fst (Load w') ++
    (if succeeds (Load w)
     then [Stdout (TextWarning (PathError op (configPath w) errno))]
     else []).
Proof.
  intros Hfile w'.
  assert (Hl : fileLoads w = true) by (eapply fileLoads_unreadable; eauto).
  assert (Hl' : fileLoads w' = true).
  { unfold fileLoads, w'. rewrite withEmptyFile_at. reflexivity. }
  assert (Hm : merged w' = merged w) by (eapply merged_unreadable; eauto).
  assert (Hp : configPath w' = configPath w) by reflexivity.
  destruct (Flags.firstError (os_Args w)) as [ty|] eqn:Ht.
  - assert (Ht' : Flags.firstError (os_Args w') = Some ty) by exact Ht.
    destruct (Flags.isErrHelp ty) eqn:Hh.
    + destruct ty; try discriminate.
      rewrite (Load_help w Ht), (Load_help w' Ht').
      split; [reflexivity|]. reflexivity.
    + assert (Hne : ty <> Flags.ErrHelp) by (intros ->; discriminate).
      rewrite (Load_args_failure w ty Ht Hne Hl).
      rewrite (Load_args_failure w' ty Ht' Hne Hl'), Hp.
      split; reflexivity.
  - assert (Ht' : Flags.firstError (os_Args w') = None) by exact Ht.
    destruct (os_MkdirAll w (DataDir (merged w))) as [e|] eqn:Hmk.
    + rewrite (Load_parsed w Ht Hl), (Load_parsed w' Ht' Hl'), Hm, Hp.
      change (createDataDir w' (merged w)) with (createDataDir w (merged w)).
      destruct (createDataDir_error w _ e Hmk) as (t & cause & ->).
      unfold succeeds. cbn [bind ret app fst snd].
      split; [reflexivity|]. rewrite app_nil_r. reflexivity.
    + assert (Hmk' : os_MkdirAll w' (DataDir (merged w')) = None)
        by (rewrite Hm; exact Hmk).
      rewrite (Load_ok w Ht Hl Hmk), (Load_ok w' Ht' Hl' Hmk'), Hm, Hp.
      unfold succeeds, warning. rewrite Hfile.
      replace (os_File w' (configPath w')) with (Entries [])
        by (symmetry; apply withEmptyFile_at).
      split; reflexivity.
Qed.

Lemma Load_rejected_file (w : World) :
  fileLoads w = false ->
  succeeds (Load w) = false /\
  (Flags.firstError (os_Args w) <> Some Flags.ErrHelp ->
   Load w = iniFailure (configPath w)).
Proof.
  intros Hf. split.
  - destruct (Flags.firstError (os_Args w)) as [[]|] eqn:Ht;
      try (rewrite Load_ini_failure;
           [reflexivity|rewrite Ht; congruence|exact Hf]).
    rewrite (Load_help w Ht). reflexivity.
  - intros Hh. apply Load_ini_failure; assumption.
Qed.

(** ** The data directory and the config file path *)

Lemma preParse_fst (w : World) :
  fst (preParse w) = assignAll (Flags.stored (os_Args w)) (defaultConfig w).
Proof. unfold preParse. rewrite ParseArgs_stored. reflexivity. Qed.

Lemma preParse_DataDir (w : World) :
  DataDir (fst (preParse w)) =
  match lastString datadir (Flags.stored (os_Args w)) with
  | Some d => d
  | None => defaultDataDir w
  end.
Proof. rewrite preParse_fst. apply (getString_assignAll datadir). Qed.

Lemma preParse_ConfigFile (w : World) :
  ConfigFile (fst (preParse w)) =
  match lastString configfile (Flags.stored (os_Args w)) with
  | Some v => v
  | None => defaultConfigFile w
  end.
Proof. rewrite preParse_fst. apply (getString_assignAll configfile). Qed.

Lemma replaceFirst_tilde (home rest : string) :
  replaceFirst "~"%char home (String "~" rest) = (home ++ rest)%string.
Proof. reflexivity. Qed.

Lemma cleanAndExpandPath_eq (w : World) (path : string) :
  cleanAndExpandPath w path =
  Filepath.Clean (os_ExpandEnv w (expandTilde w path)).
Proof.
  unfold cleanAndExpandPath, expandTilde, Filepath.hasTildePrefix.
  destruct path as [|c rest]; [reflexivity|].
  destruct (Ascii.eqb_spec c "~"%char) as [->|Hc].
  - reflexivity.
  - destruct c as [[] [] [] [] [] [] [] []]; try reflexivity.
    contradiction Hc. reflexivity.
Qed.

Lemma Load_opens_configPath (w : World) :
  Flags.firstError (os_Args w) <> Some Flags.ErrHelp ->
  exists t r, Load w = (OpenFile (configPath w) :: t, r).
Proof.
  intros Hh.
  destruct (fileLoads w) eqn:Hf.
  - destruct (Flags.firstError (os_Args w)) as [ty|] eqn:Ht.
    + rewrite (Load_args_failure w ty Ht) by congruence. eauto.
    + rewrite (Load_parsed w Ht Hf).
      destruct (createDataDir w (merged w)) as [t1 [e|[]]]; cbn [bind ret app];
        eauto.
  - rewrite (Load_ini_failure w Hh Hf). unfold iniFailure. eauto.
Qed.

Lemma configPath_default (w : World) :
  DataDir (fst (preParse w)) <> "" ->
  ConfigFile (fst (preParse w)) = defaultConfigFile w ->
  configPath w =
  Filepath.Join [Filepath.Abs (os_Getwd w) (DataDir (fst (preParse w)));
                 defaultConfigFilename].
Proof.
  intros Hd Hc. unfold configPath, resolved, updateDataDir.
  apply String.eqb_neq in Hd. rewrite Hd.
  apply String.eqb_eq in Hc. rewrite Hc. reflexivity.
Qed.

Lemma configPath_explicit (w : World) :
  DataDir (fst (preParse w)) <> "" ->
  ConfigFile (fst (preParse w)) <> defaultConfigFile w ->
  configPath w =
  Filepath.Clean
    (os_ExpandEnv w (expandTilde w (ConfigFile (fst (preParse w))))).
Proof.
  intros Hd Hc. unfold configPath, resolved, updateDataDir.
  apply String.eqb_neq in Hd. rewrite Hd.
  apply String.eqb_neq in Hc. rewrite Hc.
  simpl ConfigFile. apply cleanAndExpandPath_eq.
Qed.

Lemma withLogFiles_DataDir (c : Config) : DataDir (withLogFiles c) = DataDir c.
Proof. reflexivity. Qed.

(* ===================================================================== *)
(** * The properties of [Load] *)
(* ===================================================================== *)

(** C1, as stated, fails for [ConfigFile]: with [--datadir /tmp/x] as the
    whole command line and no config file, no source sets the config file
    path, and yet the [ConfigFile] that [Load] returns is not the built-in
    default: it is the default file name under the new data directory. *)
Lemma datadir_override_moves_configfile :
  let w := exampleWorld [Flags.Opt (SetString datadir "/tmp/x")] noFile in
  lastString configfile (Flags.stored (os_Args w)) = None /\
  lastString configfile (fileSettings w) = None /\
  ConfigFile (defaultConfig w) =
    "/home/user/.cmswww/dataload/cmswwwdataload.conf" /\
  exists t cfg,
    Load w = (t, inr cfg) /\
    ConfigFile cfg = "/tmp/x/cmswwwdataload.conf" /\
    ConfigFile cfg <> ConfigFile (defaultConfig w).
Proof.
  intros w. split; [reflexivity|]. split; [reflexivity|].
  split; [reflexivity|].
  eexists _, _. split; [vm_compute; reflexivity|].
  split; [reflexivity|discriminate].
Qed.

(** C1, amended: in the [Config] that [Load] returns, every option holds
    the value given for it on the command line; if the command line does
    not give it, the value given in the config file; if neither gives it,
    the value of the struct the file was loaded into.  That struct holds
    the built-in default of every option but [datadir] and [configfile].
    These two [Load] recomputes from the struct [preCfg] of the pre-parse
    (the command line's values, or the defaults): when the data directory
    of [preCfg] is empty they keep their defaults; otherwise [DataDir] is
    its absolute path, and [ConfigFile] is the default file name joined
    under that path when [preCfg] has the default config file path, and
    the path of [preCfg], cleaned and expanded, when it has another.  The
    rule is applied per option: a source that leaves an option out leaves
    the value of the source below it. *)
Theorem Load_precedence (w : World) (t : list Event) (cfg : Config) :
  Load w = (t, inr cfg) ->
  (forall o : StringOption,
     getString o cfg =
     layered (lastString o (Flags.stored (os_Args w)))
             (lastString o (fileSettings w))
             (getString o (resolved w))) /\
  (forall o : BoolOption,
     getBool o cfg =
     layered (lastBool o (Flags.stored (os_Args w)))
             (lastBool o (fileSettings w))
             (getBool o (defaultConfig w))) /\
  (forall o : StringOption,
     o <> datadir -> o <> configfile ->
     getString o (resolved w) = getString o (defaultConfig w)) /\
  Forall (fun a => Flags.accepted a = true) (os_Args w) /\
  (let preCfg := fst (preParse w) in
   (DataDir preCfg = "" ->
    DataDir (resolved w) = defaultDataDir w /\
    ConfigFile (resolved w) = defaultConfigFile w) /\
   (DataDir preCfg <> "" ->
    DataDir (resolved w) = Filepath.Abs (os_Getwd w) (DataDir preCfg) /\
    (ConfigFile preCfg = defaultConfigFile w ->
     ConfigFile (resolved w) =
     Filepath.Join [Filepath.Abs (os_Getwd w) (DataDir preCfg);
                    defaultConfigFilename]) /\
    (ConfigFile preCfg <> defaultConfigFile w ->
     ConfigFile (resolved w) = cleanAndExpandPath w (ConfigFile preCfg))) /\
   DataDir preCfg =
     match lastString datadir (Flags.stored (os_Args w)) with
     | Some d => d
     | None => defaultDataDir w
     end /\
   ConfigFile preCfg =
     match lastString configfile (Flags.stored (os_Args w)) with
     | Some v => v
     | None => defaultConfigFile w
     end).
Proof.
  intros H. apply Load_success in H.
  destruct H as (Hargs & _ & _ & -> & _).
  split; [|split; [|split; [|split]]].
  - intros o. unfold withLogFiles. rewrite getString_logFiles.
    apply getString_merged.
  - intros o. unfold withLogFiles. rewrite getBool_logFiles.
    rewrite getBool_merged, resolved_bool. reflexivity.
  - intros o. apply resolved_other.
  - apply Forall_forall. apply forallb_forall.
    apply (firstError_None (os_Args w)). exact Hargs.
  - intros preCfg. split; [|split; [|split]].
    + intros Hd. unfold resolved, updateDataDir. fold preCfg.
      rewrite Hd. split; reflexivity.
    + intros Hd. unfold resolved, updateDataDir. fold preCfg.
      apply String.eqb_neq in Hd. rewrite Hd.
      split; [|split].
      * destruct (ConfigFile preCfg =? defaultConfigFile w)%string;
          reflexivity.
      * intros Hc. apply String.eqb_eq in Hc. rewrite Hc. reflexivity.
      * intros Hc. apply String.eqb_neq in Hc. rewrite Hc. reflexivity.
    + apply preParse_DataDir.
    + apply preParse_ConfigFile.
Qed.

Lemma Load_precedence_witness :
  let w := exampleWorld [Flags.Opt (SetString adminuser "cliuser");
                         Flags.Opt (SetBool verbose true)] exampleFile in
  exists t cfg,
    Load w = (t, inr cfg) /\
    AdminUser cfg = "cliuser" /\ AdminPass cfg = "filepass" /\
    AdminEmail cfg = "admin@example.com" /\
    Verbose cfg = true /\ DeleteData cfg = true /\ IncludeTests cfg = false.
Proof.
  intros w.
  destruct (Load w) as [t [e|cfg]] eqn:E; [discriminate E|].
  exists t, cfg. split; [reflexivity|].
  destruct (Load_precedence w t cfg E) as (Hs & Hb & _ & _).
  repeat split.
  - exact (Hs adminuser).
  - exact (Hs adminpass).
  - exact (Hs adminemail).
  - exact (Hb verbose).
  - exact (Hb deletedata).
  - exact (Hb includetests).
Defined.

(** C2, as stated, fails in its last part: a config file that exists and
    that the process may not open ([EACCES], which [os.IsNotExist] does not
    count as absence) gives an [*os.PathError] too, so [Load] returns a
    [Config] and prints a warning. *)
Lemma unreadable_file_is_not_fatal :
  let w := exampleWorld [] deniedFile in
  os_File w (configPath w) = Unreadable "open" EACCES /\
  IsNotExist (PathError "open" (configPath w) EACCES) = false /\
  succeeds (Load w) = true /\
  fst (Load w) =
    [OpenFile (configPath w);
     MkdirAll "/home/user/.cmswww/dataload";
     Stdout (TextWarning (PathError "open" (configPath w) EACCES))].
Proof. repeat split. Qed.

(** C2, amended: [Load] never fails because the config file cannot be
    opened or read, whether it is absent or unreadable for another reason
    (any [*os.PathError]): it returns what it returns with an empty file at
    that path, and when it returns a [Config] it prints the error as a
    warning, after every other step.  A config file that is read and is not
    ini syntax, or holds an entry the parser rejects, always makes [Load]
    fail, with the error of the ini parser unless the command line asks
    for help. *)
Theorem Load_config_file_errors (w : World) :
  (forall op errno,
     os_File w (configPath w) = Unreadable op errno ->
     let w' := withEmptyFile (configPath w) w in
     snd (Load w) = snd (Load w') /\
     fst (Load w) =
       fst (Load w') ++
       (if succeeds (Load w)
        then [Stdout (TextWarning (PathError op (configPath w) errno))]
        else [])) /\
  (os_File w (configPath w) = Malformed -> succeeds (Load w) = false) /\
  (fileLoads w = false ->
   succeeds (Load w) = false /\
   (Flags.firstError (os_Args w) <> Some Flags.ErrHelp ->
    Load w = iniFailure (configPath w))).
Proof.
  split; [|split].
  - intros op errno H. exact (Load_unreadable w op errno H).
  - intros H. apply Load_rejected_file. unfold fileLoads. rewrite H.
    reflexivity.
  - apply Load_rejected_file.
Qed.

Lemma Load_config_file_errors_witness :
  (let w := exampleWorld [] noFile in
   snd (Load w) = snd (Load (withEmptyFile (configPath w) w)) /\
   fst (Load w) =
     fst (Load (withEmptyFile (configPath w) w)) ++
     [Stdout (TextWarning (PathError "open" (configPath w) ENOENT))]) /\
  (let w := exampleWorld [] malformedFile in
   succeeds (Load w) = false /\ Load w = iniFailure (configPath w)).
Proof.
  split.
  - intros w.
    exact (proj1 (Load_config_file_errors w) "open" ENOENT eq_refl).
  - intros w. split.
    + exact (proj1 (proj2 (Load_config_file_errors w)) eq_refl).
    + refine (proj2 (proj2 (proj2 (Load_config_file_errors w)) eq_refl) _).
      discriminate.
Defined.

(** C5, at the input on which [Load] differs: with [--datadir rel] on the
    command line, working directory [/work] and no config file, [Load]
    computes the absolute path [/work/rel] and loads the config file from
    under it, and then the second parse of the command line stores the
    string ["rel"] again: the [DataDir] of the [Config] it returns is
    relative, and the directory it creates is ["rel"]. *)
Theorem Load_relative_datadir :
  let w := exampleWorld [Flags.Opt (SetString datadir "rel")] noFile in
  exists t cfg,
    Load w = (t, inr cfg) /\
    DataDir (resolved w) = "/work/rel" /\
    DataDir cfg = "rel" /\
    Filepath.IsAbs (DataDir cfg) = false /\
    t = [OpenFile "/work/rel/cmswwwdataload.conf"; MkdirAll "rel";
         Stdout (TextWarning
                   (PathError "open" "/work/rel/cmswwwdataload.conf" ENOENT))].
Proof.
  intros w. eexists _, _. split; [vm_compute; reflexivity|].
  repeat split.
Qed.

(** C6, at the input on which [Load] differs: with [--datadir rel/data]
    and [--configfile ~/etc/../my.conf] on the command line, [Load]
    computes the cleaned and expanded path [/home/user/my.conf] (line 141)
    and loads the config file from it, and then the second parse of the
    command line stores the string of the command line again: the
    [ConfigFile] of the [Config] it returns is ["~/etc/../my.conf"],
    neither expanded nor cleaned. *)
Theorem Load_explicit_configfile :
  let w := exampleWorld
             [Flags.Opt (SetString datadir "rel/data");
              Flags.Opt (SetString configfile "~/etc/../my.conf")]
             noFile in
  exists t cfg,
    Load w = (t, inr cfg) /\
    cleanAndExpandPath w "~/etc/../my.conf" = "/home/user/my.conf" /\
    ConfigFile (resolved w) = "/home/user/my.conf" /\
    ConfigFile cfg = "~/etc/../my.conf" /\
    ConfigFile cfg <> cleanAndExpandPath w "~/etc/../my.conf" /\
    Filepath.Clean (ConfigFile cfg) <> ConfigFile cfg /\
    t = [OpenFile "/home/user/my.conf"; MkdirAll "rel/data";
         Stdout (TextWarning (PathError "open" "/home/user/my.conf" ENOENT))].
Proof.
  intros w. eexists _, _. split; [vm_compute; reflexivity|].
  split; [reflexivity|]. split; [reflexivity|]. split; [reflexivity|].
  split; [discriminate|]. split; [discriminate|reflexivity].
Qed.

(** The path the config file is loaded from.  Let [preCfg] be the struct
    after the pre-parse, with a data directory that is not empty.  If its
    [ConfigFile] is the default config file path, the config file is loaded
    from the default file name joined under the absolute data directory.
    If not, it is loaded from the given path with a leading [~] replaced by
    the directory of the home directory, environment variables expanded and
    the result cleaned.  In both cases this is the path [Load] opens, and
    the two fields of [preCfg] are the last values given on the command
    line, or the defaults. *)
Lemma configPath_spec (w : World) :
  let preCfg := fst (preParse w) in
  DataDir preCfg <> "" ->
  (ConfigFile preCfg = defaultConfigFile w ->
   configPath w =
   Filepath.Join [Filepath.Abs (os_Getwd w) (DataDir preCfg);
                  defaultConfigFilename]) /\
  (ConfigFile preCfg <> defaultConfigFile w ->
   configPath w =
   Filepath.Clean (os_ExpandEnv w (expandTilde w (ConfigFile preCfg))) /\
   configPath w = cleanAndExpandPath w (ConfigFile preCfg)) /\
  (Flags.firstError (os_Args w) <> Some Flags.ErrHelp ->
   exists t r, Load w = (OpenFile (configPath w) :: t, r)) /\
  DataDir preCfg =
    match lastString datadir (Flags.stored (os_Args w)) with
    | Some d => d
    | None => defaultDataDir w
    end /\
  ConfigFile preCfg =
    match lastString configfile (Flags.stored (os_Args w)) with
    | Some v => v
    | None => defaultConfigFile w
    end.
Proof.
  intros preCfg Hd.
  split; [|split; [|split; [|split]]].
  - intros Hc. apply configPath_default; assumption.
  - intros Hc. split; [apply configPath_explicit; assumption|].
    rewrite cleanAndExpandPath_eq. apply configPath_explicit; assumption.
  - apply Load_opens_configPath.
  - apply preParse_DataDir.
  - apply preParse_ConfigFile.
Qed.

Lemma configPath_spec_witness :
  (let w := exampleWorld [Flags.Opt (SetString datadir "rel/data")] noFile in
   configPath w = "/work/rel/data/cmswwwdataload.conf") /\
  (let w := exampleWorld [Flags.Opt (SetString datadir "rel/data");
                          Flags.Opt (SetString configfile "~/etc/../my.conf")]
                         noFile in
   configPath w = "/home/user/my.conf").
Proof.
  split; intros w.
  - refine (eq_trans (proj1 (configPath_spec w _) eq_refl) eq_refl).
    discriminate.
  - refine (eq_trans (proj1 (proj1 (proj2 (configPath_spec w _)) _)) eq_refl);
      discriminate.
Defined.

(** C7: in every [Config] that [Load] returns, each of the two log file
    paths is its default file name joined under the [DataDir] of that same
    [Config], so that its directory is that [DataDir], cleaned; and that
    [DataDir] is the one that the command line, the config file and the
    defaults give, in this order. *)
Theorem Load_log_files (w : World) (t : list Event) (cfg : Config) :
  Load w = (t, inr cfg) ->
  PoliteiadLogFile cfg =
    Filepath.Join [DataDir cfg; defaultPoliteiadLogFilename] /\
  CmswwwLogFile cfg =
    Filepath.Join [DataDir cfg; defaultCmswwwLogFilename] /\
  Filepath.Dir (PoliteiadLogFile cfg) = Filepath.Clean (DataDir cfg) /\
  Filepath.Dir (CmswwwLogFile cfg) = Filepath.Clean (DataDir cfg) /\
  DataDir cfg =
    layered (lastString datadir (Flags.stored (os_Args w)))
            (lastString datadir (fileSettings w))
            (DataDir (resolved w)).
Proof.
  intros H. apply Load_success in H. destruct H as (_ & _ & _ & -> & _).
  rewrite withLogFiles_DataDir.
  split; [reflexivity|]. split; [reflexivity|].
  split; [|split].
  - apply Dir_Join_child. reflexivity.
  - apply Dir_Join_child. reflexivity.
  - apply (getString_merged w datadir).
Qed.

Lemma Load_log_files_witness :
  let w := exampleWorld [Flags.Opt (SetBool verbose true)] datadirFile in
  exists t cfg,
    Load w = (t, inr cfg) /\
    DataDir cfg = "var/data" /\
    PoliteiadLogFile cfg = "var/data/politeiad.log" /\
    CmswwwLogFile cfg = "var/data/cmswww.log" /\
    Filepath.Dir (PoliteiadLogFile cfg) = "var/data" /\
    Filepath.Dir (CmswwwLogFile cfg) = "var/data".
Proof.
  intros w.
  destruct (Load w) as [t [e|cfg]] eqn:E; [discriminate E|].
  exists t, cfg. split; [reflexivity|].
  destruct (Load_log_files w t cfg E) as (Hp & Hc & Hdp & Hdc & Hd).
  assert (Hdata : DataDir cfg = "var/data") by exact Hd.
  rewrite Hdp, Hdc, Hp, Hc, Hdata. repeat split.
Defined.

(** C8, as stated, fails when an argument that the parser rejects comes
    before the help flag: the pre-parse stops at that argument with an
    error that is not a help request and [Load] ignores it.  In this run
    [Load] opens the config file (which is absent) and fails in the second
    parse with the error of the rejected argument, which the parser and
    then the usage line report on standard error. *)
Lemma help_after_invalid_argument :
  let w := exampleWorld [Flags.Invalid Flags.ErrUnknownFlag; Flags.HelpFlag]
                        noFile in
  In Flags.HelpFlag (os_Args w) /\
  Load w =
    ([OpenFile "/home/user/.cmswww/dataload/cmswwwdataload.conf";
      Stderr (TextError (FlagsError Flags.ErrUnknownFlag));
      Stderr TextUsage],
     inl (FlagsError Flags.ErrUnknownFlag)).
Proof. split; [right; left; reflexivity | reflexivity]. Qed.

(** C8, amended: when the help flag is on the command line and every
    argument before it is accepted by the parser, [Load] stops in the
    pre-parse: it prints the help message and returns the help error
    ([flags.ErrHelp]) and no [Config]; it opens no config file and creates
    no directory. *)
Theorem Load_help_request (w : World)
    (pre rest : list (Flags.Arg Setting)) :
  os_Args w = pre ++ Flags.HelpFlag :: rest ->
  forallb Flags.accepted pre = true ->
  Load w = ([Stderr (TextError (FlagsError Flags.ErrHelp))],
            inl (FlagsError Flags.ErrHelp)) /\
  (forall path, ~ In (OpenFile path) (fst (Load w))) /\
  (forall path, ~ In (MkdirAll path) (fst (Load w))) /\
  succeeds (Load w) = false.
Proof.
  intros Hargs Hpre.
  assert (H : Load w = helpOutcome).
  { apply Load_help. rewrite Hargs, firstError_app_accepted by exact Hpre.
    reflexivity. }
  rewrite H. unfold helpOutcome. repeat split.
  - intros path [E|[]]. discriminate E.
  - intros path [E|[]]. discriminate E.
Qed.

Lemma Load_help_request_witness :
  let w := exampleWorld [Flags.Opt (SetString datadir "/tmp/x");
                         Flags.HelpFlag;
                         Flags.Opt (SetBool verbose true)] exampleFile in
  Load w = ([Stderr (TextError (FlagsError Flags.ErrHelp))],
            inl (FlagsError Flags.ErrHelp)).
Proof.
  intros w.
  exact (proj1 (Load_help_request w [Flags.Opt (SetString datadir "/tmp/x")]
                  [Flags.Opt (SetBool verbose true)] eq_refl eq_refl)).
Defined.

(** C9: with [--datadir /tmp/x] as the whole command line, no file at
    [/tmp/x/cmswwwdataload.conf] and a data directory that can be created,
    [Load] returns a [Config] with [DataDir = "/tmp/x"],
    [ConfigFile = "/tmp/x/cmswwwdataload.conf"] and the log files
    ["/tmp/x/politeiad.log"] and ["/tmp/x/cmswww.log"], after it has opened
    that config file, created [/tmp/x] and printed the warning for the
    missing file. *)
Theorem Load_datadir_scenario (w : World) :
  os_Args w = [Flags.Opt (SetString datadir "/tmp/x")] ->
  os_File w "/tmp/x/cmswwwdataload.conf" = Unreadable "open" ENOENT ->
  os_MkdirAll w "/tmp/x" = None ->
  exists cfg,
    Load w =
      ([OpenFile "/tmp/x/cmswwwdataload.conf"; MkdirAll "/tmp/x";
        Stdout (TextWarning
                  (PathError "open" "/tmp/x/cmswwwdataload.conf" ENOENT))],
       inr cfg) /\
    DataDir cfg = "/tmp/x" /\
    ConfigFile cfg = "/tmp/x/cmswwwdataload.conf" /\
    PoliteiadLogFile cfg = "/tmp/x/politeiad.log" /\
    CmswwwLogFile cfg = "/tmp/x/cmswww.log".
Proof.
  intros Hargs Hfile Hmk.
  assert (Hpath : configPath w = "/tmp/x/cmswwwdataload.conf").
  { rewrite configPath_default.
    - rewrite preParse_DataDir, Hargs. reflexivity.
    - rewrite preParse_DataDir, Hargs. discriminate.
    - rewrite preParse_ConfigFile, Hargs. reflexivity. }
  assert (Hl : fileLoads w = true).
  { unfold fileLoads. rewrite Hpath, Hfile. reflexivity. }
  assert (Hdd : DataDir (merged w) = "/tmp/x").
  { change (DataDir (merged w)) with (getString datadir (merged w)).
    rewrite getString_merged, Hargs. reflexivity. }
  assert (Hcf : ConfigFile (merged w) = "/tmp/x/cmswwwdataload.conf").
  { change (ConfigFile (merged w)) with (getString configfile (merged w)).
    rewrite getString_merged, Hargs. unfold fileSettings.
    rewrite Hpath, Hfile. exact Hpath. }
  exists (withLogFiles (merged w)). split.
  - rewrite Load_ok;
      [|rewrite Hargs; reflexivity|exact Hl|rewrite Hdd; exact Hmk].
    unfold warning. rewrite Hpath, Hfile, Hdd. reflexivity.
  - unfold withLogFiles. simpl. rewrite Hdd. repeat split. exact Hcf.
Qed.

Lemma Load_datadir_scenario_witness :
  let w := exampleWorld [Flags.Opt (SetString datadir "/tmp/x")] noFile in
  exists cfg,
    snd (Load w) = inr cfg /\
    DataDir cfg = "/tmp/x" /\
    ConfigFile cfg = "/tmp/x/cmswwwdataload.conf" /\
    PoliteiadLogFile cfg = "/tmp/x/politeiad.log" /\
    CmswwwLogFile cfg = "/tmp/x/cmswww.log".
Proof.
  intros w.
  destruct (Load_datadir_scenario w eq_refl eq_refl eq_refl)
    as (cfg & HL & H).
  exists cfg. split; [rewrite HL; reflexivity | exact H].
Defined.

(* ===================================================================== *)
(** * Further properties of the identity helpers *)
(* ===================================================================== *)

Section IdentityMore.
Variable PublicKeySize : nat.
Local Abbreviation Identity := (Database.Identity PublicKeySize).
Local Abbreviation zeroKey := (Database.zeroKey PublicKeySize).

Lemma ActiveIdentity_filter (i : list Identity) :
  ActiveIdentity i =
  match filter IsIdentityActive i with
  | [] => (zeroKey, false)
  | v :: _ => (Key v, true)
  end.
Proof.
  induction i as [|u rest IH]; simpl; [reflexivity|].
  destruct (IsIdentityActive u); [reflexivity|exact IH].
Qed.

Lemma filter_Permutation (A : Type) (f : A -> bool) (l l' : list A) :
  Permutation l l' -> Permutation (filter f l) (filter f l').
Proof.
  induction 1 as [|x l l' _ IH|x y l|l l' l'' _ IH1 _ IH2]; simpl.
  - constructor.
  - destruct (f x); [constructor|]; exact IH.
  - destruct (f x), (f y); try reflexivity. constructor.
  - etransitivity; eassumption.
Qed.

Lemma ActiveIdentity_flag (i : list Identity) :
  snd (ActiveIdentity i) = existsb IsIdentityActive i.
Proof.
  induction i as [|u rest IH]; simpl; [reflexivity|].
  destruct (IsIdentityActive u); [reflexivity|exact IH].
Qed.

(** X1: the flag that [ActiveIdentity] returns says whether some identity
    of the sequence is active; when it is [true] the key returned is the key
    of an active identity of the sequence, and when it is [false] the key is
    the zero key. *)
Theorem ActiveIdentity_found (i : list Identity) :
  snd (ActiveIdentity i) = existsb IsIdentityActive i /\
  (snd (ActiveIdentity i) = true <->
   exists v, In v i /\ IsIdentityActive v = true) /\
  (snd (ActiveIdentity i) = true ->
   exists v, In v i /\ IsIdentityActive v = true /\
             fst (ActiveIdentity i) = Key v) /\
  (snd (ActiveIdentity i) = false -> fst (ActiveIdentity i) = zeroKey).
Proof.
  split; [apply ActiveIdentity_flag|]. split; [|split].
  - rewrite ActiveIdentity_flag, existsb_exists. reflexivity.
  - rewrite ActiveIdentity_filter.
    destruct (filter IsIdentityActive i) as [|v l] eqn:E; [discriminate|].
    intros _. exists v.
    assert (Hin : In v (filter IsIdentityActive i))
      by (rewrite E; left; reflexivity).
    apply filter_In in Hin. destruct Hin as [Hin Ha]. auto.
  - rewrite ActiveIdentity_filter.
    destruct (filter IsIdentityActive i); [reflexivity|discriminate].
Qed.

(** X2: on a concatenation, [ActiveIdentity] answers for the first part
    when that part has an active identity and for the second part
    otherwise: identities appended to a history never change the answer of
    a history that has an active key. *)
Theorem ActiveIdentity_app (a b : list Identity) :
  ActiveIdentity (a ++ b) =
  if snd (ActiveIdentity a) then ActiveIdentity a else ActiveIdentity b.
Proof.
  induction a as [|u rest IH]; simpl; [reflexivity|].
  destruct (IsIdentityActive u); [reflexivity|exact IH].
Qed.

(** X3: when at most one identity of a sequence is active, the answer of
    [ActiveIdentity] does not depend on the order of the sequence. *)
Theorem ActiveIdentity_permutation (i j : list Identity) :
  atMostOneActive i -> Permutation i j ->
  ActiveIdentity i = ActiveIdentity j.
Proof.
  unfold atMostOneActive. intros Hone Hperm.
  rewrite !ActiveIdentity_filter.
  apply (filter_Permutation _ IsIdentityActive) in Hperm.
  destruct (filter IsIdentityActive i) as [|v [|v' l]].
  - apply Permutation_nil in Hperm. rewrite Hperm. reflexivity.
  - apply Permutation_length_1_inv in Hperm. rewrite Hperm. reflexivity.
  - simpl in Hone. lia.
Qed.
End IdentityMore.

(** ** The hex string of a key *)

Lemma hexdigits_lower (b : byte) :
  Hex.isLowerHex (Hex.hexdigit (N.shiftr (Byte.to_N b) 4)) = true /\
  Hex.isLowerHex (Hex.hexdigit (N.land (Byte.to_N b) 15)) = true.
Proof. destruct b; split; reflexivity. Qed.

Lemma hexdigits_decode (b : byte) :
  exists h l,
    Hex.fromHexChar (Hex.hexdigit (N.shiftr (Byte.to_N b) 4)) = Some h /\
    Hex.fromHexChar (Hex.hexdigit (N.land (Byte.to_N b) 15)) = Some l /\
    Byte.of_N (16 * h + l) = Some b.
Proof. destruct b; eexists _, _; repeat split. Qed.

Lemma hexdigits_inj (b b' : byte) :
  Hex.hexdigit (N.shiftr (Byte.to_N b) 4) =
    Hex.hexdigit (N.shiftr (Byte.to_N b') 4) ->
  Hex.hexdigit (N.land (Byte.to_N b) 15) =
    Hex.hexdigit (N.land (Byte.to_N b') 15) ->
  b = b'.
Proof.
  intros Hh Hl.
  destruct (hexdigits_decode b) as (h & l & E1 & E2 & E3).
  destruct (hexdigits_decode b') as (h' & l' & E1' & E2' & E3').
  rewrite Hh, E1' in E1. rewrite Hl, E2' in E2.
  injection E1 as <-. injection E2 as <-. congruence.
Qed.

Lemma EncodeToString_inj (src src' : list byte) :
  Hex.EncodeToString src = Hex.EncodeToString src' -> src = src'.
Proof.
  revert src'. induction src as [|b r IH]; intros [|b' r']; simpl;
    try discriminate; [reflexivity|].
  intros H. injection H as Hh Hl Hr.
  f_equal; [|apply IH, Hr].
  apply hexdigits_inj.
  - exact Hh.
  - exact Hl.
Qed.

Lemma EncodeToString_lower (src : list byte) :
  Hex.allChars Hex.isLowerHex (Hex.EncodeToString src) = true.
Proof.
  induction src as [|b r IH]; [reflexivity|].
  destruct (hexdigits_lower b) as [H1 H2].
  cbn [Hex.EncodeToString Hex.allChars]. rewrite H1, H2, IH. reflexivity.
Qed.

Section IdentityStrings.
Variable PublicKeySize : nat.
Local Abbreviation Identity := (Database.Identity PublicKeySize).

(** X4: the string that [ActiveIdentityString] returns always has
    [2 * PublicKeySize] characters, each one of [0-9a-f]. *)
Theorem ActiveIdentityString_format (i : list Identity) :
  String.length (fst (ActiveIdentityString i)) = 2 * PublicKeySize /\
  Hex.allChars Hex.isLowerHex (fst (ActiveIdentityString i)) = true.
Proof.
  unfold ActiveIdentityString. destruct (ActiveIdentity i) as [key ok].
  simpl fst. split.
  - rewrite EncodeToString_length, Vector.length_to_list. reflexivity.
  - apply EncodeToString_lower.
Qed.

(** X5: [ActiveIdentityString] gives the same answer on two sequences
    exactly when [ActiveIdentity] does: the hex string determines the key. *)
Theorem ActiveIdentityString_injective (i j : list Identity) :
  ActiveIdentityString i = ActiveIdentityString j <->
  ActiveIdentity i = ActiveIdentity j.
Proof.
  unfold ActiveIdentityString. split.
  - destruct (ActiveIdentity i) as [k ok], (ActiveIdentity j) as [k' ok'].
    intros H. injection H as Hk Hok.
    apply EncodeToString_inj, Vector.to_list_inj in Hk. congruence.
  - intros ->. reflexivity.
Qed.
End IdentityStrings.

(* ===================================================================== *)
(** * Further properties of the path functions *)
(* ===================================================================== *)

Section FilepathMore.

Import Filepath.

Lemma Clean_nonempty (p : string) : Clean p <> "".
Proof.
  unfold Clean. destruct (p =? "")%string; [discriminate|].
  destruct (IsAbs p); [discriminate|].
  destruct (String.eqb_spec
              (joinSep (rev (cleanElems false [] (split p)))) "");
    [discriminate|assumption].
Qed.

Lemma rev_nonempty (A : Type) (l : list A) : l <> [] -> rev l <> [].
Proof.
  intros Hne E. apply Hne. rewrite <- (rev_involutive l), E. reflexivity.
Qed.

Lemma joinSep_head (e : string) (l : list string) :
  exists rest, joinSep (e :: l) = (e ++ rest)%string.
Proof.
  destruct l as [|e' l'].
  - exists "". simpl. symmetry. apply string_app_nil_r.
  - eexists. rewrite joinSep_cons by discriminate. reflexivity.
Qed.

Lemma IsAbs_cleaned (rooted : bool) (out : list string) :
  cleanOutput rooted out -> IsAbs (cleaned rooted out) = rooted.
Proof.
  intros Hout. unfold cleaned. destruct rooted; [reflexivity|].
  destruct (String.eqb_spec (joinSep (rev out)) "") as [|Hne]; [reflexivity|].
  pose proof (Forall_rev (cleanOutput_elements false out Hout)) as Hall.
  destruct (rev out) as [|e l]; [contradiction Hne; reflexivity|].
  inversion Hall as [|? ? [He Hs] _]; subst.
  destruct (joinSep_head e l) as (rest & ->).
  apply noSeparator_IsAbs; assumption.
Qed.

(** Cleaning what [Clean] returns gives it back. *)
Lemma Clean_cleaned (rooted : bool) (out : list string) :
  cleanOutput rooted out -> Clean (cleaned rooted out) = cleaned rooted out.
Proof.
  intros Hout. destruct out as [|e below] eqn:Eout.
  - destruct rooted; reflexivity.
  - rewrite <- Eout in *.
    assert (Hne : out <> []) by (rewrite Eout; discriminate).
    assert (Hrev : rev out <> []) by (apply rev_nonempty, Hne).
    assert (Hseps : Forall (fun e => noSeparator e = true) (rev out)).
    { apply Forall_rev, (cleanOutput_noSeparator rooted), Hout. }
    rewrite Clean_eq.
    2:{ pose proof (IsAbs_cleaned rooted out Hout) as Ha.
        intros E. unfold cleaned in E.
        destruct rooted; [discriminate|].
        destruct (joinSep (rev out) =? "")%string eqn:Eb; [discriminate|].
        apply String.eqb_neq in Eb. contradiction. }
    rewrite (IsAbs_cleaned rooted out Hout).
    assert (Hsplit : cleanElems rooted [] (split (cleaned rooted out)) = out).
    { unfold cleaned. destruct rooted.
      - change (split (String Separator (joinSep (rev out))))
          with ("" :: split (joinSep (rev out))).
        rewrite (split_joinSep _ Hrev Hseps).
        change (cleanElems true [] ("" :: rev out))
          with (cleanElems true [] (rev out)).
        rewrite <- (app_nil_r (rev out)).
        apply (cleanElems_replay true out [] Hout).
      - destruct (String.eqb_spec (joinSep (rev out)) "") as [E|_].
        + exfalso.
          pose proof (Forall_rev (cleanOutput_elements false out Hout)) as Hall.
          destruct (rev out) as [|e' l']; [congruence|].
          inversion Hall as [|? ? [He _] _]; subst.
          destruct (joinSep_head e' l') as (rest & Er). rewrite Er in E.
          destruct e'; [congruence|discriminate].
        + rewrite (split_joinSep _ Hrev Hseps).
          rewrite <- (app_nil_r (rev out)).
          apply (cleanElems_replay false out [] Hout). }
    rewrite Hsplit. reflexivity.
Qed.

Lemma Clean_idempotent (p : string) : Clean (Clean p) = Clean p.
Proof.
  destruct (String.eqb_spec p "") as [->|Hp]; [reflexivity|].
  rewrite (Clean_eq p Hp). apply Clean_cleaned, cleanElems_split_cleanOutput.
Qed.

Lemma IsAbs_Clean (p : string) : p <> "" -> IsAbs (Clean p) = IsAbs p.
Proof.
  intros Hp. rewrite (Clean_eq p Hp).
  apply IsAbs_cleaned, cleanElems_split_cleanOutput.
Qed.

Lemma Join_pair (a b : string) :
  a <> "" -> Join [a; b] = Clean (a ++ String Separator b).
Proof.
  intros Ha. unfold Join. apply String.eqb_neq in Ha. rewrite Ha. reflexivity.
Qed.

Lemma Join_pair_empty (b : string) :
  b <> "" -> Join [""; b] = Clean b.
Proof.
  intros Hb. simpl. apply String.eqb_neq in Hb. rewrite Hb. reflexivity.
Qed.

Lemma Join_fileName_clean (d name : string) :
  name <> "" ->
  Join [d; name] <> "" /\ Clean (Join [d; name]) = Join [d; name].
Proof.
  intros Hn. destruct (String.eqb_spec d "") as [->|Hd].
  - rewrite (Join_pair_empty name Hn).
    split; [apply Clean_nonempty|apply Clean_idempotent].
  - rewrite (Join_pair d name Hd).
    split; [apply Clean_nonempty|apply Clean_idempotent].
Qed.

Lemma IsAbs_Join_pair (a b : string) :
  a <> "" -> IsAbs (Join [a; b]) = IsAbs a.
Proof.
  intros Ha. rewrite (Join_pair a b Ha), IsAbs_Clean.
  - apply IsAbs_app, Ha.
  - destruct a; [congruence|discriminate].
Qed.

Lemma IsAbs_nonempty (p : string) : IsAbs p = true -> p <> "".
Proof. destruct p; [discriminate|discriminate]. Qed.

(** With a working directory that is an absolute path, or none needed,
    [Abs] returns an absolute, cleaned path. *)
Lemma Abs_absolute (getwd : option string) (p : string) :
  IsAbs p = true \/ (exists wd, getwd = Some wd /\ IsAbs wd = true) ->
  IsAbs (Abs getwd p) = true /\ Clean (Abs getwd p) = Abs getwd p.
Proof.
  intros H. unfold Abs. destruct (IsAbs p) eqn:Hp.
  - split; [|apply Clean_idempotent].
    rewrite IsAbs_Clean by (apply IsAbs_nonempty, Hp). exact Hp.
  - destruct H as [H|(wd & -> & Hwd)]; [discriminate|].
    pose proof (IsAbs_nonempty wd Hwd) as Hne.
    split.
    + rewrite (IsAbs_Join_pair wd p Hne). exact Hwd.
    + rewrite (Join_pair wd p Hne). apply Clean_idempotent.
Qed.

End FilepathMore.

(* ===================================================================== *)
(** * Further properties of [Load] *)
(* ===================================================================== *)

(** ** How [Load] ends *)

Lemma createDataDir_error_eq (w : World) (c : Config) (e : error) :
  os_MkdirAll w (DataDir c) = Some e ->
  createDataDir w c =
  (MkdirAll (DataDir c) :: mkdirProbe e ++
     [Stderr (TextError (CreateDataDirFailed "loadConfig" (mkdirCause w e)))],
   inl (CreateDataDirFailed "loadConfig" (mkdirCause w e))).
Proof.
  intros H. unfold createDataDir. rewrite H.
  destruct e as [op path errno| | | |]; try reflexivity.
  unfold mkdirCause, mkdirProbe.
  destruct (IsExist (PathError op path errno)); [|reflexivity].
  cbn [bind emit]. destruct (os_Readlink w path); reflexivity.
Qed.

Lemma Load_mkdir_failure_eq (w : World) (e : error) :
  Flags.firstError (os_Args w) = None -> fileLoads w = true ->
  os_MkdirAll w (DataDir (merged w)) = Some e ->
  Load w =
  (OpenFile (configPath w) :: MkdirAll (DataDir (merged w)) ::
     mkdirProbe e ++
     [Stderr (TextError (CreateDataDirFailed "loadConfig" (mkdirCause w e)))],
   inl (CreateDataDirFailed "loadConfig" (mkdirCause w e))).
Proof.
  intros Ht Hf Hm. rewrite (Load_parsed w Ht Hf).
  rewrite (createDataDir_error_eq w _ e Hm). reflexivity.
Qed.

Lemma Load_cases (w : World) : LoadCase w.
Proof.
  destruct (Flags.firstError (os_Args w)) as [ty|] eqn:Ht.
  - destruct (Flags.isErrHelp ty) eqn:Hh.
    + destruct ty; try discriminate.
      apply CaseHelp; [exact Ht|apply Load_help, Ht].
    + assert (Hne : ty <> Flags.ErrHelp) by (intros ->; discriminate).
      destruct (fileLoads w) eqn:Hf.
      * apply (CaseArgs w ty); auto. apply Load_args_failure; auto.
      * apply CaseFile; [rewrite Ht; congruence|exact Hf|].
        apply Load_ini_failure; [rewrite Ht; congruence|exact Hf].
  - destruct (fileLoads w) eqn:Hf.
    + destruct (os_MkdirAll w (DataDir (merged w))) as [e|] eqn:Hm.
      * apply (CaseMkdir w e); auto. apply Load_mkdir_failure_eq; auto.
      * apply CaseOk; auto. apply Load_ok; auto.
    + apply CaseFile; [rewrite Ht; discriminate|exact Hf|].
      apply Load_ini_failure; [rewrite Ht; discriminate|exact Hf].
Qed.

Lemma mkdirProbe_events (e : error) (ev : Event) :
  In ev (mkdirProbe e) -> exists path, ev = Readlink path.
Proof.
  unfold mkdirProbe. destruct e as [op path errno| | | |]; try (intros []).
  destruct (IsExist _); [|intros []].
  intros [<-|[]]. eauto.
Qed.

Lemma warning_events (w : World) (ev : Event) :
  In ev (warning w) ->
  exists op errno,
    os_File w (configPath w) = Unreadable op errno /\
    ev = Stdout (TextWarning (PathError op (configPath w) errno)).
Proof.
  unfold warning. destruct (os_File w (configPath w)) as [op errno| |es];
    [|intros []|intros []].
  intros [<-|[]]. eauto.
Qed.

(** X6: [Load] returns a [Config] exactly when the command line raises no
    error, the config file raises no error other than an [*os.PathError],
    and the data directory of the merged settings can be created. *)
Theorem Load_succeeds_iff (w : World) :
  succeeds (Load w) = true <->
  Flags.firstError (os_Args w) = None /\
  fileLoads w = true /\
  os_MkdirAll w (DataDir (merged w)) = None.
Proof.
  split.
  - intros H. destruct (Load w) as [t [e|cfg]] eqn:E; [discriminate H|].
    apply Load_success in E. tauto.
  - intros (Ht & Hf & Hm). rewrite (Load_ok w Ht Hf Hm). reflexivity.
Qed.

(** X7: when the parser rejects an argument of the command line (and no
    help flag precedes it), [Load] fails: with the error of the config file
    if the file is rejected too, with the error of the argument otherwise.
    The usage message is the last thing it prints; it creates no directory
    and prints no warning. *)
Theorem Load_rejected_arguments (w : World) (t : Flags.ErrorType) :
  Flags.firstError (os_Args w) = Some t -> t <> Flags.ErrHelp ->
  snd (Load w) =
    inl (if fileLoads w then FlagsError t else IniError (configPath w)) /\
  last (fst (Load w)) (OpenFile "") = Stderr TextUsage /\
  existsb isMkdirAll (fst (Load w)) = false /\
  existsb isStdout (fst (Load w)) = false.
Proof.
  intros Ht Hne. destruct (fileLoads w) eqn:Hf.
  - rewrite (Load_args_failure w t Ht Hne Hf). repeat split.
  - rewrite Load_ini_failure; [|rewrite Ht; congruence|exact Hf].
    repeat split.
Qed.

Lemma existsb_app_false (A : Type) (f : A -> bool) (l1 l2 : list A) :
  existsb f l1 = false -> existsb f l2 = false ->
  existsb f (l1 ++ l2) = false.
Proof. intros H1 H2. rewrite existsb_app, H1, H2. reflexivity. Qed.

Lemma mkdirProbe_quiet (e : error) :
  existsb isStdout (mkdirProbe e) = false.
Proof.
  unfold mkdirProbe. destruct e as [op path errno| | | |]; try reflexivity.
  destruct (IsExist _); reflexivity.
Qed.

(** X8: when the data directory cannot be created, [Load] fails with the
    error ["loadConfig: Failed to create data directory: <cause>"], which
    is the last thing it prints, and the warning for an unreadable config
    file is not printed.  The cause is the error of [os.MkdirAll], except
    for an [*os.PathError] that [os.IsExist] accepts: then [Load] reads the
    link at the path of the error, and if there is one the cause is the
    diagnostic ["is symlink <path> -> <link> mounted?"]. *)
Theorem Load_mkdir_failure_spec (w : World) (e : error) :
  Flags.firstError (os_Args w) = None -> fileLoads w = true ->
  os_MkdirAll w (DataDir (merged w)) = Some e ->
  exists cause,
    snd (Load w) = inl (CreateDataDirFailed "loadConfig" cause) /\
    last (fst (Load w)) (OpenFile "") =
      Stderr (TextError (CreateDataDirFailed "loadConfig" cause)) /\
    existsb isStdout (fst (Load w)) = false /\
    (IsExist e = false \/ isPathError e = false -> cause = e) /\
    (forall op path errno,
       e = PathError op path errno -> IsExist e = true ->
       In (Readlink path) (fst (Load w)) /\
       cause = match os_Readlink w path with
               | Some link => SymlinkNotMounted path link
               | None => e
               end).
Proof.
  intros Ht Hf Hm. exists (mkdirCause w e).
  rewrite (Load_mkdir_failure_eq w e Ht Hf Hm). cbn [fst snd].
  split; [reflexivity|]. split; [|split; [|split]].
  - rewrite !app_comm_cons, last_last. reflexivity.
  - cbn [existsb isStdout orb]. apply existsb_app_false.
    + apply mkdirProbe_quiet.
    + reflexivity.
  - intros [H|H]; destruct e as [op path errno| | | |]; try reflexivity;
      try discriminate H.
    unfold mkdirCause. rewrite H. reflexivity.
  - intros op path errno -> Hex. split.
    + right. right. apply in_or_app. left. unfold mkdirProbe. rewrite Hex.
      left. reflexivity.
    + unfold mkdirCause. rewrite Hex. reflexivity.
Qed.

Ltac members H :=
  repeat match type of H with
         | In _ (_ :: _) => destruct H as [H|H]; [try discriminate H|]
         | In _ [] => destruct H
         | In _ (_ ++ _) => apply in_app_or in H; destruct H as [H|H]
         | In _ (mkdirProbe _) =>
             apply mkdirProbe_events in H; destruct H as (? & H);
             try discriminate H
         | In _ (warning _) =>
             apply warning_events in H;
             destruct H as (?op & ?errno & ?Hfile & H);
             try discriminate H
         end.

(** X9: what [Load] does to the outside.  The only file it opens is the
    resolved config file.  It creates a directory only after the config
    file and the command line were accepted, and only the data directory
    of the merged settings.  It writes to standard output only when it
    succeeds, and only the warning for the config file it could not read.
    When it succeeds it writes nothing to standard error, and it has
    created the [DataDir] of the [Config] it returns. *)
Theorem Load_effects (w : World) :
  (forall p, In (OpenFile p) (fst (Load w)) -> p = configPath w) /\
  (forall p, In (MkdirAll p) (fst (Load w)) ->
     p = DataDir (merged w) /\
     Flags.firstError (os_Args w) = None /\ fileLoads w = true) /\
  (forall m, In (Stdout m) (fst (Load w)) ->
     succeeds (Load w) = true /\
     exists op errno,
       os_File w (configPath w) = Unreadable op errno /\
       m = TextWarning (PathError op (configPath w) errno)) /\
  (succeeds (Load w) = true -> existsb isStderr (fst (Load w)) = false) /\
  (forall cfg, snd (Load w) = inr cfg ->
     In (MkdirAll (DataDir cfg)) (fst (Load w))).
Proof.
  destruct (Load_cases w)
    as [Ht E|Ht Hf E|t Ht Hne Hf E|e Ht Hf Hm E|Ht Hf Hm E];
    rewrite E; unfold helpOutcome, iniFailure, succeeds; cbn [fst snd];
    (split; [|split; [|split; [|split]]]);
    try solve [intros p H; members H; congruence];
    try solve [intros p H; members H; split; [congruence|auto]];
    try discriminate.
  - intros m H. members H. split; [reflexivity|].
    exists op, errno. split; [exact Hfile|congruence].
  - intros _. cbn [existsb isStderr orb]. unfold warning.
    destruct (os_File w (configPath w)); reflexivity.
  - intros cfg H. injection H as <-. right. left. reflexivity.
Qed.

Lemma mkdirCause_agrees (w w' : World) (e : error) :
  (forall op path errno,
     e = PathError op path errno -> IsExist e = true ->
     os_Readlink w' path = os_Readlink w path) ->
  mkdirCause w' e = mkdirCause w e.
Proof.
  intros H. destruct e as [op path errno| | | |]; try reflexivity.
  unfold mkdirCause. destruct (IsExist (PathError op path errno)) eqn:E;
    [|reflexivity].
  rewrite (H op path errno eq_refl eq_refl). reflexivity.
Qed.

(** X10: [Load] depends on files, directories and links through three
    answers alone: what is at the resolved config file path, whether the
    data directory of the merged settings can be created, and, when it
    cannot for an [*os.PathError] that [os.IsExist] accepts, where the path
    of that error links to.  A world that agrees on these three (and on the
    command line, the home directory, the working directory and the
    environment) gives the same effects and the same result. *)
Theorem Load_file_system_frame (w : World) (f : string -> FileState)
    (mk : string -> option error) (rl : string -> option string) :
  f (configPath w) = os_File w (configPath w) ->
  mk (DataDir (merged w)) = os_MkdirAll w (DataDir (merged w)) ->
  (forall op path errno,
     os_MkdirAll w (DataDir (merged w)) = Some (PathError op path errno) ->
     IsExist (PathError op path errno) = true ->
     rl path = os_Readlink w path) ->
  Load (withFileSystem f mk rl w) = Load w.
Proof.
  intros Hf Hmk Hrl. set (w' := withFileSystem f mk rl w).
  assert (Hp : configPath w' = configPath w) by reflexivity.
  assert (Hl : fileLoads w' = fileLoads w).
  { unfold fileLoads. rewrite Hp. unfold w'. simpl os_File.
    rewrite Hf. reflexivity. }
  assert (Hs : fileSettings w' = fileSettings w).
  { unfold fileSettings. rewrite Hp. unfold w'. simpl os_File.
    rewrite Hf. reflexivity. }
  assert (Hm : merged w' = merged w).
  { unfold merged. rewrite Hs. reflexivity. }
  assert (Hw : warning w' = warning w).
  { unfold warning. rewrite Hp. unfold w'. simpl os_File.
    rewrite Hf. reflexivity. }
  assert (Hd : os_MkdirAll w' (DataDir (merged w')) =
               os_MkdirAll w (DataDir (merged w))).
  { rewrite Hm. exact Hmk. }
  destruct (Load_cases w)
    as [Ht E|Ht Hf' E|t Ht Hne Hf' E|e Ht Hf' Hmk' E|Ht Hf' Hmk' E];
    rewrite E.
  - apply (Load_help w'). exact Ht.
  - rewrite <- Hp. apply (Load_ini_failure w'); [exact Ht|].
    rewrite Hl. exact Hf'.
  - rewrite <- Hp. apply (Load_args_failure w' t); [exact Ht|exact Hne|].
    rewrite Hl. exact Hf'.
  - rewrite (Load_mkdir_failure_eq w' e);
      [|exact Ht|rewrite Hl; exact Hf'|rewrite Hd; exact Hmk'].
    rewrite Hm, Hp.
    rewrite (mkdirCause_agrees w w' e); [reflexivity|].
    intros op path errno -> Hex. apply (Hrl op path errno Hmk' Hex).
  - rewrite (Load_ok w');
      [|exact Ht|rewrite Hl; exact Hf'|rewrite Hd; exact Hmk'].
    rewrite Hm, Hw, Hp. reflexivity.
Qed.

(** ** The default paths *)

Lemma defaultDataDir_clean (w : World) :
  defaultDataDir w <> "" /\
  Filepath.Clean (defaultDataDir w) = defaultDataDir w.
Proof. apply Join_fileName_clean. discriminate. Qed.

Lemma defaultConfigFile_clean (w : World) :
  defaultConfigFile w <> "" /\
  Filepath.Clean (defaultConfigFile w) = defaultConfigFile w.
Proof. apply Join_fileName_clean. discriminate. Qed.

Lemma defaultDataDir_absolute (w : World) :
  Filepath.IsAbs (DefaultHomeDir w) = true ->
  Filepath.IsAbs (defaultDataDir w) = true.
Proof.
  intros H. unfold defaultDataDir.
  rewrite IsAbs_Join_pair by (apply IsAbs_nonempty, H). exact H.
Qed.

Lemma setString_datadir_same (c : Config) :
  setString datadir (DataDir c) c = c.
Proof. destruct c; reflexivity. Qed.

Lemma setString_configfile_same (c : Config) :
  setString configfile (ConfigFile c) c = c.
Proof. destruct c; reflexivity. Qed.

Lemma updateDataDir_skipped (w : World) (preCfg cfg : Config) :
  DataDir preCfg = "" -> updateDataDir w preCfg cfg = cfg.
Proof. intros H. unfold updateDataDir. rewrite H. reflexivity. Qed.

(** Without a data directory or config file on the command line, and
    with an absolute home directory, the update of the data directory
    changes nothing. *)
Lemma resolved_default (w : World) :
  Filepath.IsAbs (DefaultHomeDir w) = true ->
  lastString datadir (Flags.stored (os_Args w)) = None ->
  lastString configfile (Flags.stored (os_Args w)) = None ->
  resolved w = defaultConfig w.
Proof.
  intros Habs Hd Hc.
  pose proof (preParse_DataDir w) as Ed. rewrite Hd in Ed.
  pose proof (preParse_ConfigFile w) as Ec. rewrite Hc in Ec.
  destruct (defaultDataDir_clean w) as [Hne Hclean].
  unfold resolved, updateDataDir. rewrite Ed, Ec.
  apply String.eqb_neq in Hne. rewrite Hne, String.eqb_refl.
  assert (Ea : Filepath.Abs (os_Getwd w) (defaultDataDir w) =
               defaultDataDir w).
  { unfold Filepath.Abs. rewrite (defaultDataDir_absolute w Habs).
    exact Hclean. }
  rewrite Ea.
  change (defaultDataDir w) with (DataDir (defaultConfig w)) at 1.
  rewrite setString_datadir_same.
  change (Filepath.Join [DataDir (defaultConfig w); defaultConfigFilename])
    with (ConfigFile (defaultConfig w)).
  apply setString_configfile_same.
Qed.

(** X11: with an absolute home directory and neither [--datadir] nor
    [--configfile] on the command line, the update of the data directory
    (lines 135-143) leaves the default record as it is, and the config file
    is loaded from the default config file path, which is absolute. *)
Theorem resolved_without_overrides (w : World) :
  Filepath.IsAbs (DefaultHomeDir w) = true ->
  lastString datadir (Flags.stored (os_Args w)) = None ->
  lastString configfile (Flags.stored (os_Args w)) = None ->
  resolved w = defaultConfig w /\
  configPath w = defaultConfigFile w /\
  Filepath.IsAbs (configPath w) = true.
Proof.
  intros Habs Hd Hc. pose proof (resolved_default w Habs Hd Hc) as E.
  split; [exact E|]. unfold configPath. rewrite E. split; [reflexivity|].
  simpl ConfigFile. unfold defaultConfigFile.
  destruct (defaultDataDir_clean w) as [Hne _].
  rewrite IsAbs_Join_pair by exact Hne.
  apply defaultDataDir_absolute, Habs.
Qed.

Lemma assignAll_nil (c : Config) : assignAll [] c = c.
Proof. reflexivity. Qed.

(** X12: with an absolute home directory, no option on the command line,
    a config file that contributes no setting (absent, or empty) and a
    default data directory that can be created, [Load] returns the default
    record of lines 97-112, with the two log files under the default data
    directory. *)
Theorem Load_defaults (w : World) :
  Filepath.IsAbs (DefaultHomeDir w) = true ->
  Flags.stored (os_Args w) = [] ->
  Flags.firstError (os_Args w) = None ->
  fileLoads w = true -> fileSettings w = [] ->
  os_MkdirAll w (defaultDataDir w) = None ->
  Load w =
    (OpenFile (defaultConfigFile w) :: MkdirAll (defaultDataDir w) ::
       warning w,
     inr {| AdminEmail := "admin@example.com";
            AdminUser := "admin";
            AdminPass := "password";
            ContractorEmail := "contractor@example.com";
            ContractorUser := "contractor";
            ContractorPass := "password";
            ContractorName := "John Smith";
            ContractorLocation := "Dallas, TX, USA";
            ContractorExtendedPublicKey := "faketpub";
            Verbose := false;
            DataDir := defaultDataDir w;
            ConfigFile := defaultConfigFile w;
            DebugLevel := "info";
            DeleteData := false;
            IncludeTests := false;
            PoliteiadLogFile :=
              Filepath.Join [defaultDataDir w; "politeiad.log"];
            CmswwwLogFile :=
              Filepath.Join [defaultDataDir w; "cmswww.log"] |}).
Proof.
  intros Habs Hs Ht Hf Hfs Hm.
  assert (Hr : resolved w = defaultConfig w)
    by (apply resolved_default; [exact Habs|rewrite Hs; reflexivity..]).
  assert (Hmerged : merged w = defaultConfig w).
  { unfold merged. rewrite Hs, Hfs, Hr. reflexivity. }
  rewrite (Load_ok w Ht Hf); [|rewrite Hmerged; exact Hm].
  unfold configPath. rewrite Hmerged, Hr. reflexivity.
Qed.

(** ** The path the config file is loaded from *)

Lemma cleanAndExpandPath_clean (w : World) (path : string) :
  cleanAndExpandPath w path <> "" /\
  Filepath.Clean (cleanAndExpandPath w path) = cleanAndExpandPath w path.
Proof.
  rewrite cleanAndExpandPath_eq.
  split; [apply Clean_nonempty|apply Clean_idempotent].
Qed.

Lemma configPath_clean (w : World) :
  configPath w <> "" /\ Filepath.Clean (configPath w) = configPath w.
Proof.
  unfold configPath, resolved, updateDataDir.
  destruct (DataDir (fst (preParse w)) =? "")%string.
  - apply defaultConfigFile_clean.
  - destruct (ConfigFile (fst (preParse w)) =? defaultConfigFile w)%string.
    + apply Join_fileName_clean. discriminate.
    + apply cleanAndExpandPath_clean.
Qed.

(** X13: [cleanAndExpandPath] never returns the empty string, and what it
    returns is clean ([Clean] leaves it unchanged).  A path that does not
    start with [~] is only expanded and cleaned, wherever else it holds a
    [~]; in a path that starts with [~], that one character is replaced by
    the directory of the home directory, with no separator added. *)
Theorem cleanAndExpandPath_spec (w : World) (path : string) :
  cleanAndExpandPath w path <> "" /\
  Filepath.Clean (cleanAndExpandPath w path) = cleanAndExpandPath w path /\
  (Filepath.hasTildePrefix path = false ->
   cleanAndExpandPath w path = Filepath.Clean (os_ExpandEnv w path)) /\
  (forall rest,
     path = String "~" rest ->
     cleanAndExpandPath w path =
     Filepath.Clean
       (os_ExpandEnv w (Filepath.Dir (DefaultHomeDir w) ++ rest)%string)).
Proof.
  destruct (cleanAndExpandPath_clean w path) as [H1 H2].
  split; [exact H1|]. split; [exact H2|]. split.
  - intros H. unfold cleanAndExpandPath. rewrite H. reflexivity.
  - intros rest ->. rewrite cleanAndExpandPath_eq. reflexivity.
Qed.

(** X14: the path that [Load] loads the config file from is never empty
    and always clean, whatever the command line gives; so is every path
    that [Load] opens. *)
Theorem configPath_cleaned (w : World) :
  configPath w <> "" /\
  Filepath.Clean (configPath w) = configPath w /\
  (forall t r p, Load w = (t, r) -> In (OpenFile p) t ->
     p <> "" /\ Filepath.Clean p = p).
Proof.
  destruct (configPath_clean w) as [H1 H2].
  split; [exact H1|]. split; [exact H2|].
  intros t r p E Hin.
  destruct (Load_cases w)
    as [Ht E'|Ht Hf E'|ty Ht Hne Hf E'|e Ht Hf Hm E'|Ht Hf Hm E'];
    rewrite E' in E; injection E as <- <-;
    members Hin; injection Hin as <-; auto.
Qed.

(** X15: when the data directory after the pre-parse is not empty and the
    config file path is the default one, the data directory is replaced by
    its absolute path and the config file is loaded from directly under it
    (its directory is that data directory, cleaned).  When the data
    directory is absolute, or the working directory is, that data
    directory is absolute and clean and so is the config file path. *)
Theorem configPath_relocated (w : World) :
  DataDir (fst (preParse w)) <> "" ->
  ConfigFile (fst (preParse w)) = defaultConfigFile w ->
  DataDir (resolved w) =
    Filepath.Abs (os_Getwd w) (DataDir (fst (preParse w))) /\
  Filepath.Dir (configPath w) = Filepath.Clean (DataDir (resolved w)) /\
  (Filepath.IsAbs (DataDir (fst (preParse w))) = true \/
   (exists wd, os_Getwd w = Some wd /\ Filepath.IsAbs wd = true) ->
   Filepath.IsAbs (DataDir (resolved w)) = true /\
   Filepath.Clean (DataDir (resolved w)) = DataDir (resolved w) /\
   Filepath.Dir (configPath w) = DataDir (resolved w) /\
   Filepath.IsAbs (configPath w) = true).
Proof.
  intros Hd Hc.
  assert (Er : resolved w =
               setString configfile
                 (Filepath.Join
                    [Filepath.Abs (os_Getwd w) (DataDir (fst (preParse w)));
                     defaultConfigFilename])
                 (setString datadir
                    (Filepath.Abs (os_Getwd w) (DataDir (fst (preParse w))))
                    (defaultConfig w))).
  { unfold resolved, updateDataDir.
    apply String.eqb_neq in Hd. rewrite Hd.
    apply String.eqb_eq in Hc. rewrite Hc. reflexivity. }
  assert (Ed : DataDir (resolved w) =
               Filepath.Abs (os_Getwd w) (DataDir (fst (preParse w))))
    by (rewrite Er; reflexivity).
  assert (Ep : configPath w =
               Filepath.Join [DataDir (resolved w); defaultConfigFilename])
    by (unfold configPath; rewrite Ed, Er; reflexivity).
  split; [exact Ed|]. split.
  - rewrite Ep. apply Dir_Join_child. reflexivity.
  - intros Habs. rewrite Ed.
    destruct (Abs_absolute (os_Getwd w) (DataDir (fst (preParse w))) Habs)
      as [Ha Hcl].
    split; [exact Ha|]. split; [exact Hcl|]. rewrite <- Ed in *. split.
    + rewrite Ep, Dir_Join_child by reflexivity. exact Hcl.
    + rewrite Ep, IsAbs_Join_pair by (apply IsAbs_nonempty, Ha). exact Ha.
Qed.

(** X16: when neither the command line nor the config file sets
    [datadir], the [DataDir] that [Load] returns is the absolute path of the
    default data directory; if the home directory or the working directory
    is absolute, it is absolute and clean, and so are the two log file
    paths. *)
Theorem Load_default_datadir (w : World) (t : list Event) (cfg : Config) :
  Load w = (t, inr cfg) ->
  lastString datadir (Flags.stored (os_Args w)) = None ->
  lastString datadir (fileSettings w) = None ->
  DataDir cfg = Filepath.Abs (os_Getwd w) (defaultDataDir w) /\
  (Filepath.IsAbs (DefaultHomeDir w) = true \/
   (exists wd, os_Getwd w = Some wd /\ Filepath.IsAbs wd = true) ->
   Filepath.IsAbs (DataDir cfg) = true /\
   Filepath.Clean (DataDir cfg) = DataDir cfg /\
   Filepath.IsAbs (PoliteiadLogFile cfg) = true /\
   Filepath.IsAbs (CmswwwLogFile cfg) = true).
Proof.
  intros H Hcli Hfile. apply Load_success in H.
  destruct H as (_ & _ & _ & -> & _).
  rewrite withLogFiles_DataDir.
  assert (Ed : DataDir (merged w) =
               Filepath.Abs (os_Getwd w) (defaultDataDir w)).
  { change (DataDir (merged w)) with (getString datadir (merged w)).
    rewrite getString_merged, Hcli, Hfile. unfold layered.
    pose proof (preParse_DataDir w) as Ep. rewrite Hcli in Ep.
    destruct (defaultDataDir_clean w) as [Hne _].
    unfold resolved, updateDataDir. rewrite Ep.
    apply String.eqb_neq in Hne. rewrite Hne.
    destruct (ConfigFile (fst (preParse w)) =? defaultConfigFile w)%string;
      reflexivity. }
  split; [exact Ed|]. intros Habs.
  assert (Habs' : Filepath.IsAbs (defaultDataDir w) = true \/
                  (exists wd, os_Getwd w = Some wd /\
                              Filepath.IsAbs wd = true)).
  { destruct Habs as [Hh|Hwd]; [left|right; exact Hwd].
    apply defaultDataDir_absolute, Hh. }
  destruct (Abs_absolute (os_Getwd w) (defaultDataDir w) Habs') as [Ha Hcl].
  rewrite <- Ed in Ha, Hcl.
  split; [exact Ha|]. split; [exact Hcl|].
  change (PoliteiadLogFile (withLogFiles (merged w)))
    with (Filepath.Join [DataDir (merged w); defaultPoliteiadLogFilename]).
  change (CmswwwLogFile (withLogFiles (merged w)))
    with (Filepath.Join [DataDir (merged w); defaultCmswwwLogFilename]).
  rewrite !IsAbs_Join_pair by (apply IsAbs_nonempty, Ha). auto.
Qed.

(** X17: an empty [--datadir] switches the update of lines 135-143 off:
    the config file is loaded from the default path even when
    [--configfile] names another file, and the directory that [Load] then
    tries to create is the empty path. *)
Theorem empty_datadir_skips_update (w : World) :
  lastString datadir (Flags.stored (os_Args w)) = Some "" ->
  resolved w = defaultConfig w /\
  configPath w = defaultConfigFile w /\
  (forall p, In (MkdirAll p) (fst (Load w)) -> p = "").
Proof.
  intros Hd.
  assert (Ep : DataDir (fst (preParse w)) = "")
    by (rewrite preParse_DataDir, Hd; reflexivity).
  assert (Er : resolved w = defaultConfig w)
    by (apply updateDataDir_skipped, Ep).
  split; [exact Er|]. split; [unfold configPath; rewrite Er; reflexivity|].
  intros p Hin.
  destruct (Load_cases w)
    as [Ht E|Ht Hf E|ty Ht Hne Hf E|e Ht Hf Hm E|Ht Hf Hm E];
    rewrite E in Hin; unfold helpOutcome, iniFailure in Hin;
    cbn [fst] in Hin; members Hin; injection Hin as <-;
    change (DataDir (merged w)) with (getString datadir (merged w));
    rewrite getString_merged, Hd; reflexivity.
Qed.

(** X18: the error of [filepath.Abs] is dropped (line 136): when
    [os.Getwd] fails and the data directory is relative, the data directory
    becomes the empty string, and a config file left at its default is
    loaded from the bare file name [cmswwwdataload.conf], relative to the
    working directory. *)
Theorem getwd_failure_ignored (w : World) :
  os_Getwd w = None ->
  DataDir (fst (preParse w)) <> "" ->
  Filepath.IsAbs (DataDir (fst (preParse w))) = false ->
  DataDir (resolved w) = "" /\
  (ConfigFile (fst (preParse w)) = defaultConfigFile w ->
   configPath w = defaultConfigFilename).
Proof.
  intros Hwd Hd Hrel.
  assert (Ea : Filepath.Abs (os_Getwd w) (DataDir (fst (preParse w))) = "").
  { unfold Filepath.Abs. rewrite Hrel, Hwd. reflexivity. }
  unfold configPath, resolved, updateDataDir.
  apply String.eqb_neq in Hd. rewrite Hd, Ea. split.
  - destruct (ConfigFile (fst (preParse w)) =? defaultConfigFile w)%string;
      reflexivity.
  - intros Hc. apply String.eqb_eq in Hc. rewrite Hc. reflexivity.
Qed.

(** X19: the default data directory lies directly under the home
    directory and the default config file directly under the default data
    directory; both paths are clean, and absolute when the home directory
    is. *)
Theorem default_paths_nested (w : World) :
  Filepath.Dir (defaultDataDir w) = Filepath.Clean (DefaultHomeDir w) /\
  Filepath.Dir (defaultConfigFile w) = defaultDataDir w /\
  Filepath.Clean (defaultDataDir w) = defaultDataDir w /\
  Filepath.Clean (defaultConfigFile w) = defaultConfigFile w /\
  (Filepath.IsAbs (DefaultHomeDir w) = true ->
   Filepath.IsAbs (defaultDataDir w) = true /\
   Filepath.IsAbs (defaultConfigFile w) = true).
Proof.
  destruct (defaultDataDir_clean w) as [Hne Hcl].
  split; [apply Dir_Join_child; reflexivity|].
  split; [unfold defaultConfigFile;
          rewrite Dir_Join_child by reflexivity; exact Hcl|].
  split; [exact Hcl|]. split; [apply defaultConfigFile_clean|].
  intros Habs. pose proof (defaultDataDir_absolute w Habs) as Ha.
  split; [exact Ha|]. unfold defaultConfigFile.
  rewrite IsAbs_Join_pair by exact Hne. exact Ha.
Qed.

(* ===================================================================== *)
(** * Sample runs *)
(* ===================================================================== *)

Lemma ActiveIdentity_permutation_witness :
  ActiveIdentity [retiredIdentity; firstActiveIdentity] =
  ActiveIdentity [firstActiveIdentity; retiredIdentity].
Proof.
  apply (ActiveIdentity_permutation 32).
  - unfold atMostOneActive. simpl. lia.
  - apply perm_swap.
Defined.

Lemma Load_rejected_arguments_witness :
  let w := exampleWorld [Flags.Opt (SetString datadir "/tmp/x");
                         Flags.Invalid Flags.ErrUnknownFlag] noFile in
  snd (Load w) = inl (FlagsError Flags.ErrUnknownFlag) /\
  existsb isMkdirAll (fst (Load w)) = false.
Proof.
  intros w.
  destruct (Load_rejected_arguments w Flags.ErrUnknownFlag eq_refl)
    as (H1 & _ & H3 & _).
  - discriminate.
  - split; [exact H1|exact H3].
Defined.

Lemma Load_mkdir_failure_spec_witness :
  let w := unmountedWorld [] noFile in
  snd (Load w) =
    inl (CreateDataDirFailed "loadConfig"
           (SymlinkNotMounted "/home/user/.cmswww/dataload" "/mnt/data")) /\
  existsb isStdout (fst (Load w)) = false.
Proof.
  intros w.
  destruct (Load_mkdir_failure_spec w
              (PathError "mkdir" "/home/user/.cmswww/dataload" EEXIST)
              eq_refl eq_refl eq_refl)
    as (cause & H1 & _ & H3 & _ & H5).
  destruct (H5 _ _ _ eq_refl eq_refl) as [_ Hc].
  rewrite Hc in H1. split; [exact H1|exact H3].
Defined.

Lemma Load_file_system_frame_witness :
  Load (withFileSystem onlyDefaultFile onlyDataDirFails onlyDataDirLinked
          (unmountedWorld [] exampleFile)) =
  Load (unmountedWorld [] exampleFile).
Proof.
  apply (Load_file_system_frame (unmountedWorld [] exampleFile)
           onlyDefaultFile onlyDataDirFails onlyDataDirLinked).
  - reflexivity.
  - reflexivity.
  - intros op path errno H _. injection H as _ <- _. reflexivity.
Defined.

Lemma resolved_without_overrides_witness :
  let w := exampleWorld [Flags.Opt (SetBool verbose true);
                         Flags.Opt (SetString adminuser "root")] noFile in
  resolved w = defaultConfig w /\
  configPath w = "/home/user/.cmswww/dataload/cmswwwdataload.conf".
Proof.
  intros w.
  destruct (resolved_without_overrides w eq_refl eq_refl eq_refl)
    as (H1 & H2 & _).
  split; [exact H1|exact H2].
Defined.

Lemma Load_defaults_witness :
  let w := exampleWorld [] noFile in
  exists cfg,
    snd (Load w) = inr cfg /\
    DataDir cfg = "/home/user/.cmswww/dataload" /\
    DebugLevel cfg = "info" /\
    CmswwwLogFile cfg = "/home/user/.cmswww/dataload/cmswww.log".
Proof.
  intros w.
  pose proof (Load_defaults w eq_refl eq_refl eq_refl eq_refl eq_refl eq_refl)
    as H.
  eexists. rewrite H. repeat split.
Defined.

Lemma configPath_relocated_witness :
  let w := exampleWorld [Flags.Opt (SetString datadir "rel/../data")] noFile in
  DataDir (resolved w) = "/work/data" /\
  Filepath.Dir (configPath w) = "/work/data".
Proof.
  intros w.
  assert (Hd : DataDir (fst (preParse w)) <> "") by discriminate.
  destruct (configPath_relocated w Hd eq_refl) as (H1 & _ & H3).
  destruct H3 as (_ & _ & H4 & _).
  - right. exists "/work". split; reflexivity.
  - split; [exact H1|]. rewrite H4. exact H1.
Defined.

Lemma Load_default_datadir_witness :
  let w := exampleWorld [Flags.Opt (SetBool deletedata true)] exampleFile in
  exists t cfg,
    Load w = (t, inr cfg) /\
    DataDir cfg = "/home/user/.cmswww/dataload" /\
    Filepath.IsAbs (DataDir cfg) = true.
Proof.
  intros w.
  destruct (Load w) as [t [e|cfg]] eqn:E; [discriminate E|].
  exists t, cfg. split; [reflexivity|].
  destruct (Load_default_datadir w t cfg E eq_refl eq_refl) as (H1 & H2).
  split; [exact H1|].
  apply H2. left. reflexivity.
Defined.

Lemma empty_datadir_skips_update_witness :
  let w := exampleWorld [Flags.Opt (SetString datadir "");
                         Flags.Opt (SetString configfile "/etc/load.conf")]
                        noFile in
  configPath w = "/home/user/.cmswww/dataload/cmswwwdataload.conf".
Proof.
  intros w.
  exact (proj1 (proj2 (empty_datadir_skips_update w eq_refl))).
Defined.

Lemma getwd_failure_ignored_witness :
  let w := noGetwdWorld [Flags.Opt (SetString datadir "rel")] noFile in
  DataDir (resolved w) = "" /\ configPath w = "cmswwwdataload.conf".
Proof.
  intros w.
  assert (Hd : DataDir (fst (preParse w)) <> "") by discriminate.
  destruct (getwd_failure_ignored w eq_refl Hd eq_refl) as (H1 & H2).
  split; [exact H1|exact (H2 eq_refl)].
Defined.
